(** * git-ai-tools: the status translator and the AI provider gateway

    A shallow embedding of two Go packages of the repository:
    - [internal/git]: [GetStatus], which turns the output of
      [git status --porcelain=v1] into a [GitStatus] value, and its
      helpers [runGitCommand] and [getStatusDescription];
    - [internal/ai]: [AIService] with [GenerateCommitMessage], the three
      provider back ends, [getModel], [ValidateConfig] and
      [ValidateConfigParam].

    Go strings are byte sequences: they are modelled by [string] (a list
    of 8-bit characters).  A Go [error] is modelled by its message. *)

From Stdlib Require Import String Ascii List ZArith QArith Lia Bool.
From stdpp Require Import base strings gmap pretty.

Local Open Scope stdpp_scope.
Local Open Scope Z_scope.

(** ** Results of Go calls

    A Go function returning [(T, error)] either yields a value, yields an
    error, or panics (a run-time error such as a failed type assertion or
    an index out of range). *)

Inductive Result (A : Type) : Type :=
| Ok (a : A)
| Err (msg : string)
| Panic (msg : string).

Arguments Ok {A} a.
Arguments Err {A} msg.
Arguments Panic {A} msg.

Definition isOk {A} (r : Result A) : bool :=
  match r with Ok _ => true | _ => false end.

Definition isPanic {A} (r : Result A) : bool :=
  match r with Panic _ => true | _ => false end.

(** ** The parts of Go's [strings] package the code uses *)

Module strings.

Definition bytes (codes : list nat) : string :=
  string_of_list_ascii (map ascii_of_nat codes).

(** [s[n:]] for [n <= len(s)]. *)
Fixpoint sliceFrom (n : nat) (s : string) : string :=
  match n, s with
  | O, _ => s
  | S n', String _ s' => sliceFrom n' s'
  | S _, EmptyString => EmptyString
  end.

(** [s[:n]] for [n <= len(s)]. *)
Definition sliceTo (n : nat) (s : string) : string := substring 0 n s.

Definition HasPrefix (s prefix : string) : bool := String.prefix prefix s.

Definition HasSuffix (s suffix : string) : bool :=
  String.prefix (String.rev suffix) (String.rev s).

Definition TrimSuffix (s suffix : string) : string :=
  if HasSuffix s suffix
  then sliceTo (String.length s - String.length suffix) s
  else s.

Fixpoint Contains (s substr : string) : bool :=
  if String.prefix substr s then true
  else match s with
       | EmptyString => false
       | String _ s' => Contains s' substr
       end.

(** [Split] for a non-empty separator: the pieces between the leftmost
    non-overlapping occurrences of [sep].  [skip] counts the bytes of a
    matched separator that are still to be dropped; [cur] is the piece
    being read, reversed. *)
Fixpoint split_go (sep : string) (skip : nat) (cur : string) (s : string)
  : list string :=
  match s with
  | EmptyString => [String.rev cur]
  | String c s' =>
      match skip with
      | S k => split_go sep k cur s'
      | O =>
          if String.prefix sep s
          then String.rev cur
                 :: split_go sep (String.length sep - 1) EmptyString s'
          else split_go sep O (String c cur) s'
      end
  end.

Definition Split (s sep : string) : list string :=
  split_go sep O EmptyString s.

Fixpoint Join (elems : list string) (sep : string) : string :=
  match elems with
  | [] => EmptyString
  | [e] => e
  | e :: rest => e +:+ sep +:+ Join rest sep
  end.

(** The UTF-8 encodings of the code points for which [unicode.IsSpace]
    holds: the six ASCII ones, U+0085, U+00A0, U+1680, U+2000..U+200A,
    U+2028, U+2029, U+202F, U+205F and U+3000.  A byte sequence that is
    not valid UTF-8 decodes to U+FFFD, which is no space. *)
Definition spaceRunes : list string :=
  map bytes
    [ [9]; [10]; [11]; [12]; [13]; [32];
      [194; 133]; [194; 160]; [225; 154; 128];
      [226; 128; 128]; [226; 128; 129]; [226; 128; 130]; [226; 128; 131];
      [226; 128; 132]; [226; 128; 133]; [226; 128; 134]; [226; 128; 135];
      [226; 128; 136]; [226; 128; 137]; [226; 128; 138];
      [226; 128; 168]; [226; 128; 169]; [226; 128; 175];
      [226; 129; 159]; [227; 128; 128] ]%nat.

(** Width in bytes of the white-space rune [s] starts with (among
    [runes]), [0] when it starts with none. *)
Fixpoint spaceWidthIn (runes : list string) (s : string) : nat :=
  match runes with
  | [] => O
  | r :: rest =>
      if String.prefix r s then String.length r else spaceWidthIn rest s
  end.

Definition spaceWidth : string -> nat := spaceWidthIn spaceRunes.

(** The same, reading [s] backwards from its end: [s] is reversed, and so
    are the encodings. *)
Definition spaceWidthRev : string -> nat :=
  spaceWidthIn (map String.rev spaceRunes).

Fixpoint trim_go (width : string -> nat) (skip : nat) (s : string) : string :=
  match s with
  | EmptyString => EmptyString
  | String _ s' =>
      match skip with
      | S k => trim_go width k s'
      | O =>
          match width s with
          | O => s
          | S k => trim_go width k s'
          end
      end
  end.

Definition TrimLeftSpace (s : string) : string := trim_go spaceWidth O s.

Definition TrimRightSpace (s : string) : string :=
  String.rev (trim_go spaceWidthRev O (String.rev s)).

Definition TrimSpace (s : string) : string :=
  TrimRightSpace (TrimLeftSpace s).

(** [Fields]: the maximal runs of bytes between white-space runes. *)
Fixpoint fields_go (skip : nat) (cur : option string) (s : string)
  : list string :=
  match s with
  | EmptyString => option_list (String.rev <$> cur)
  | String c s' =>
      match skip with
      | S k => fields_go k cur s'
      | O =>
          match spaceWidth s with
          | S k => option_list (String.rev <$> cur) ++ fields_go k None s'
          | O => fields_go O (Some (String c (default EmptyString cur))) s'
          end
      end
  end.

Definition Fields (s : string) : list string := fields_go O None s.

End strings.


(** The line feed, Go's ["\n"]. *)
Definition LF : string := strings.bytes [10%nat].

(** [s[i]] for [i < len(s)]; every use below is in range. *)
Definition byteAt (s : string) (i : nat) : ascii :=
  default Ascii.zero (String.get i s).

(** ** Package [models] *)

Record FileChange : Type := mkFileChange {
  Path : string;
  Status : string;
  Additions : Z;
  Deletions : Z
}.

Record GitStatus : Type := mkGitStatus {
  Branch : string;
  Staged : list FileChange;
  Unstaged : list FileChange;
  Untracked : list string;
  IsRepo : bool;
  HasChanges : bool
}.

Definition setBranch (b : string) (st : GitStatus) : GitStatus :=
  mkGitStatus b (Staged st) (Unstaged st) (Untracked st) (IsRepo st)
    (HasChanges st).

Definition setHasChanges (h : bool) (st : GitStatus) : GitStatus :=
  mkGitStatus (Branch st) (Staged st) (Unstaged st) (Untracked st) (IsRepo st) h.

Definition appendStaged (c : FileChange) (st : GitStatus) : GitStatus :=
  mkGitStatus (Branch st) (Staged st ++ [c]) (Unstaged st) (Untracked st)
    (IsRepo st) (HasChanges st).

Definition appendUnstaged (c : FileChange) (st : GitStatus) : GitStatus :=
  mkGitStatus (Branch st) (Staged st) (Unstaged st ++ [c]) (Untracked st)
    (IsRepo st) (HasChanges st).

Definition appendUntracked (p : string) (st : GitStatus) : GitStatus :=
  mkGitStatus (Branch st) (Staged st) (Unstaged st) (Untracked st ++ [p])
    (IsRepo st) (HasChanges st).

(** ** Package [git] *)

Module git.

Record GitService : Type := mkGitService { currentPath : string }.

(** [getStatusDescription] returns a human-readable status description. *)
Definition getStatusDescription (code : string) : string :=
  if String.eqb code "M " then "Staged"
  else if String.eqb code " M" then "Modified"
  else if String.eqb code "MM" then "Modified (staged and unstaged)"
  else if String.eqb code "A " then "Added"
  else if String.eqb code " D" then "Deleted"
  else if String.eqb code "D " then "Deleted (staged)"
  else if String.eqb code "R " then "Renamed"
  else if String.eqb code "C " then "Copied"
  else if String.eqb code "??" then "Untracked"
  else if String.eqb code "!!" then "Ignored"
  else "Unknown".

(** The path a porcelain line names: for a rename, the text after the
    last ["->"], trimmed. *)
Definition resolvePath (filePath : string) : string :=
  if strings.Contains filePath "->"
  then strings.TrimSpace (List.last (strings.Split filePath "->") EmptyString)
  else filePath.

(** The body of the [for _, line := range lines] loop of [GetStatus]. *)
Definition statusLine (status : GitStatus) (line : string) : GitStatus :=
  if String.eqb line EmptyString then status
  else if (3 <=? String.length line)%nat then
    let statusCode := strings.sliceTo 2 line in
    let filePath := resolvePath (strings.sliceFrom 3 line) in
    let change := mkFileChange filePath (getStatusDescription statusCode) 0 0 in
    let x := byteAt statusCode 0 in
    let y := byteAt statusCode 1 in
    let status :=
      if Ascii.eqb x "M" || Ascii.eqb x "A" || Ascii.eqb x "R" || Ascii.eqb x "C"
      then appendStaged change status else status in
    let status :=
      if Ascii.eqb x "?" then appendUntracked filePath status else status in
    if Ascii.eqb y "M" || (Ascii.eqb x "?" && Ascii.eqb y "?")
    then if negb (Ascii.eqb x "?")
         then appendUnstaged change status else status
    else status
  else status.

Section WithGit.

(** The [git] executable: from the working directory and the arguments
    to the combined output and, when the command fails, the error. *)
Variable gitExec : string -> list string -> string * option string.

(** [runGitCommand] runs a git command and returns its output with one
    trailing line feed removed; on failure the string is empty. *)
Definition runGitCommand (g : GitService) (args : list string)
  : string * option string :=
  let '(output, err) := gitExec (currentPath g) args in
  match err with
  | Some e =>
      (EmptyString,
       Some ("git " +:+ strings.Join args " " +:+ " failed: " +:+ e
               +:+ LF +:+ output))
  | None => (strings.TrimSuffix output LF, None)
  end.

(** The text [GetStatus] parses: what [git status --porcelain=v1]
    printed, as [runGitCommand] returns it. *)
Definition porcelain (g : GitService) : string * option string :=
  runGitCommand g ["status"; "--porcelain=v1"].

(** [GetStatus] returns the current git status. *)
Definition GetStatus (g : GitService) : Result GitStatus :=
  if String.eqb (currentPath g) EmptyString
  then Err "no repository selected"
  else
    let status := mkGitStatus EmptyString [] [] [] true false in
    let '(branch, err) :=
      runGitCommand g ["rev-parse"; "--abbrev-ref"; "HEAD"] in
    let status :=
      match err with
      | None => setBranch (strings.TrimSpace branch) status
      | Some _ => status
      end in
    let '(branchStatus, _) := runGitCommand g ["status"; "-sb"] in
    let withBranch : Result GitStatus :=
      if negb (String.eqb branchStatus EmptyString)
      then match strings.Fields branchStatus with
           | f :: _ => Ok (setBranch f status)
           | [] => Panic "index out of range [0] with length 0"
           end
      else Ok status in
    match withBranch with
    | Ok status =>
        let '(output, err) := porcelain g in
        match err with
        | Some e => Err ("failed to get git status: " +:+ e)
        | None =>
            if String.eqb output EmptyString
            then Ok (setHasChanges false status)
            else
              let status := setHasChanges true status in
              let lines := strings.Split output LF in
              Ok (fold_left statusLine lines status)
        end
    | Err e => Err e
    | Panic e => Panic e
    end.

End WithGit.

End git.


(** ** Package [models]: the AI configuration *)

Definition AIProvider : Type := string.

Definition ProviderOpenAI : AIProvider := "openai".
Definition ProviderClaude : AIProvider := "claude".
Definition ProviderOllama : AIProvider := "ollama".

Record AIConfig : Type := mkAIConfig {
  Provider : AIProvider;
  APIKey : string;
  BaseURL : string;
  Model : string
}.

(** ** JSON values and HTTP messages

    [Value] is what [encoding/json] stores in an [interface{}]: [nil], a
    [bool], a [float64], a [string], a [[]interface{}] or a
    [map[string]interface{}]. *)

#[local] Unset Elimination Schemes.
Inductive Value : Type :=
| VNil
| VBool (b : bool)
| VNumber (x : Q)
| VString (s : string)
| VArray (a : list Value)
| VObject (m : gmap string Value).
#[local] Set Elimination Schemes.

(** The checked type assertions [v.(T)] of the two-result form; a key that
    a map lacks reads as [nil], which has no dynamic type. *)
Definition asArray (v : option Value) : option (list Value) :=
  match v with Some (VArray a) => Some a | _ => None end.

Definition asObject (v : option Value) : option (gmap string Value) :=
  match v with Some (VObject m) => Some m | _ => None end.

Definition asString (v : option Value) : option string :=
  match v with Some (VString s) => Some s | _ => None end.

Record Request : Type := mkRequest {
  Method : string;
  URL : string;
  Header : gmap string string;
  Body : string
}.

(** [req.Header.Set(key, value)].  [net/http] stores the key in its
    canonical spelling; the model keeps it as the code writes it. *)
Definition Header_Set (key value : string) (req : Request) : Request :=
  mkRequest (Method req) (URL req) (<[key := value]> (Header req)) (Body req).

(** A response: its status code and what [io.ReadAll] gives on its body. *)
Record Response : Type := mkResponse {
  StatusCode : Z;
  ReadAll : Result string
}.

Definition StatusOK : Z := 200.

(** [fmt.Errorf("prefix: %w", err)] on the error of a failed call. *)
Definition wrapErr {A} (prefix : string) (r : Result A) : Result A :=
  match r with
  | Ok a => Ok a
  | Err e => Err (prefix +:+ e)
  | Panic e => Panic e
  end.

(** ** Package [ai] *)

Module ai.

(** The double quote, which the prompts contain. *)
Definition DQ : string := strings.bytes [34%nat].

(** An [http.Client], seen as what its [Do] answers to a request. *)
Definition Client : Type := Request -> Result Response.

(** [AIService] handles AI operations for generating commit messages. *)
Record AIService : Type := mkAIService {
  config : AIConfig;
  client : Client
}.

(** What a method call can read and change: the service behind the
    receiver pointer, and the requests sent over the network so far. *)
Record World : Type := mkWorld {
  service : AIService;
  sent : list Request
}.

(** Methods run in a state-and-error monad over [World]. *)
Definition M (A : Type) : Type := World -> Result A * World.

Definition ret {A} (a : A) : M A := fun w => (Ok a, w).

Definition bind {A B} (c : M A) (k : A -> M B) : M B :=
  fun w =>
    match c w with
    | (Ok a, w') => k a w'
    | (Err e, w') => (Err e, w')
    | (Panic e, w') => (Panic e, w')
    end.

Definition lift {A} (r : Result A) : M A := fun w => (r, w).

Definition fail {A} (msg : string) : M A := lift (Err msg).

Definition panic {A} (msg : string) : M A := lift (Panic msg).

Definition self : M AIService := fun w => (Ok (service w), w).

Notation "x <- c ;; k" := (bind c (fun x => k))
  (at level 100, c at next level, right associativity).

(** [a.client.Do(req)]: the one place a request leaves the process. *)
Definition client_Do (req : Request) : M Response :=
  fun w =>
    (client (service w) req, mkWorld (service w) (sent w ++ [req])).

(** [NewAIService] creates a new AIService instance. *)
Definition NewAIService (c : Client) : AIService :=
  mkAIService
    (mkAIConfig ProviderOpenAI EmptyString "https://api.openai.com/v1" "gpt-4")
    c.

(** [SetConfig] updates the AI service configuration. *)
Definition SetConfig (cfg : AIConfig) : M unit :=
  fun w => (Ok tt, mkWorld (mkAIService cfg (client (service w))) (sent w)).

(** [GetConfig] returns the current AI configuration. *)
Definition GetConfig : M AIConfig :=
  a <- self ;; ret (config a).

(** [getModel] returns the model to use, with defaults for each provider. *)
Definition getModel : M string :=
  a <- self ;;
  if negb (String.eqb (Model (config a)) EmptyString)
  then ret (Model (config a))
  else if String.eqb (Provider (config a)) ProviderOpenAI then ret "gpt-4"
  else if String.eqb (Provider (config a)) ProviderClaude
       then ret "claude-3-sonnet-20240229"
  else if String.eqb (Provider (config a)) ProviderOllama then ret "llama2"
  else ret "gpt-4".

(** [ValidateConfig] checks if the current configuration is valid. *)
Definition ValidateConfig : M unit :=
  a <- self ;;
  _ <- (if String.eqb (Provider (config a)) ProviderOpenAI
           || String.eqb (Provider (config a)) ProviderClaude
        then if String.eqb (APIKey (config a)) EmptyString
             then fail ("API key is required for " +:+ Provider (config a))
             else ret tt
        else ret tt) ;;
  if String.eqb (Provider (config a)) EmptyString
  then fail "provider must be specified"
  else ret tt.

(** [ValidateConfigParam] validates the given AI configuration without
    modifying internal state. *)
Definition ValidateConfigParam (cfg : AIConfig) : M unit :=
  _ <- (if String.eqb (Provider cfg) ProviderOpenAI
           || String.eqb (Provider cfg) ProviderClaude
        then if String.eqb (APIKey cfg) EmptyString
             then fail ("API key is required for " +:+ Provider cfg)
             else ret tt
        else ret tt) ;;
  if String.eqb (Provider cfg) EmptyString
  then fail "provider must be specified"
  else ret tt.

(** The system instruction of the OpenAI and Claude requests. *)
Definition systemPrompt : string :=
  "你是一个专业的 git 提交信息助手，擅长生成简洁清晰的提交信息，遵循 Conventional Commits 规范。"
  +:+ LF +:+ LF +:+
  "分析 git diff 并生成提交信息，要求：" +:+ LF +:+
  "1. 使用中文编写提交信息" +:+ LF +:+
  "2. 以类型开头（feat, fix, docs, style, refactor, test, chore 等）" +:+ LF +:+
  "3. 后面跟简短的描述（不超过 50 字）" +:+ LF +:+
  "4. 如有必要，添加更详细的正文说明" +:+ LF +:+
  "5. 使用祈使句（用" +:+ DQ +:+ "添加" +:+ DQ +:+ "而非" +:+ DQ +:+ "已添加"
    +:+ DQ +:+ "）" +:+ LF +:+
  "6. 明确具体地说明变更内容" +:+ LF +:+ LF +:+
  "只返回提交信息本身，不要有其他解释。".

Definition userPrompt (diff : string) : string :=
  "请为以下 diff 生成一个中文的 git 提交信息：" +:+ LF +:+ LF +:+ diff.

(** The prompt of the Ollama request. *)
Definition ollamaPrompt (diff : string) : string :=
  "你是一个专业的 git 提交信息助手，擅长生成简洁清晰的提交信息，遵循 Conventional Commits 规范。"
  +:+ LF +:+ LF +:+
  "分析 git diff 并生成中文提交信息。要求：" +:+ LF +:+
  "1. 以类型开头（feat, fix, docs, style, refactor, test, chore 等）" +:+ LF +:+
  "2. 后面跟简短的描述（不超过 50 字）" +:+ LF +:+
  "3. 使用祈使句（用" +:+ DQ +:+ "添加" +:+ DQ +:+ "而非" +:+ DQ +:+ "已添加"
    +:+ DQ +:+ "）" +:+ LF +:+
  "4. 只返回提交信息本身，不要有其他解释" +:+ LF +:+ LF +:+
  "Diff:" +:+ LF +:+ diff +:+ LF +:+ LF +:+
  "提交信息：".

Definition message (role content : string) : Value :=
  VObject (list_to_map [("role", VString role); ("content", VString content)]).

Definition notAMap : string :=
  "interface conversion: interface {} is not map[string]interface {}".

Definition notAString : string :=
  "interface conversion: interface {} is not string".

(** What [generateWithOpenAI] does with the decoded response. *)
Definition openAIText (response : gmap string Value) : Result string :=
  match asArray (response !! "choices") with
  | None | Some [] => Err "no choices in response"
  | Some (choice0 :: _) =>
      match asObject (Some choice0) with
      | None => Panic notAMap
      | Some choice =>
          match asObject (choice !! "message") with
          | None => Panic notAMap
          | Some message =>
              let content := default EmptyString (asString (message !! "content")) in
              Ok (strings.TrimSpace content)
          end
      end
  end.

(** What [generateWithClaude] does with the decoded response. *)
Definition claudeText (response : gmap string Value) : Result string :=
  match asArray (response !! "content") with
  | None | Some [] => Err "no content in response"
  | Some (content0 :: _) =>
      match asObject (Some content0) with
      | None => Panic notAMap
      | Some block =>
          match asString (block !! "text") with
          | None => Panic notAString
          | Some text => Ok (strings.TrimSpace text)
          end
      end
  end.

(** What [generateWithOllama] does with the decoded response. *)
Definition ollamaText (response : gmap string Value) : Result string :=
  match asString (response !! "response") with
  | None => Err "no response in output"
  | Some respContent => Ok (strings.TrimSpace respContent)
  end.

Section WithLibraries.

(** [json.Marshal], [json.Unmarshal] into a [map[string]interface{}],
    and [http.NewRequest] (method, URL, body). *)
Variable json_Marshal : Value -> Result string.
Variable json_Unmarshal : string -> Result (gmap string Value).
Variable http_NewRequest : string -> string -> string -> Result Request.

(** The exchange all three back ends share once the request body is
    built: marshal, send, read, check the status, decode. *)
Definition exchange (url : string) (requestBody : Value)
    (headers : Request -> Request) : M (gmap string Value) :=
  jsonData <- lift (wrapErr "failed to marshal request: "
                      (json_Marshal requestBody)) ;;
  req <- lift (wrapErr "failed to create request: "
                 (http_NewRequest "POST" url jsonData)) ;;
  resp <- (fun w => let '(r, w') := client_Do (headers req) w in
                    (wrapErr "failed to send request: " r, w')) ;;
  body <- lift (wrapErr "failed to read response: " (ReadAll resp)) ;;
  if negb (StatusCode resp =? StatusOK)
  then fail ("API error (status " +:+ pretty (StatusCode resp) +:+ "): "
               +:+ body)
  else lift (wrapErr "failed to parse response: " (json_Unmarshal body)).

(** [generateWithOpenAI] generates commit message using OpenAI API. *)
Definition generateWithOpenAI (diff : string) : M string :=
  a <- self ;;
  let baseURL :=
    if String.eqb (BaseURL (config a)) EmptyString
    then "https://api.openai.com/v1" else BaseURL (config a) in
  model <- getModel ;;
  let requestBody :=
    VObject (list_to_map
      [ ("model", VString model);
        ("messages", VArray [ message "system" systemPrompt;
                              message "user" (userPrompt diff) ]);
        ("temperature", VNumber (3 # 10));
        ("max_tokens", VNumber (200 # 1)) ]) in
  response <- exchange (baseURL +:+ "/chat/completions") requestBody
    (fun req =>
       Header_Set "Authorization" ("Bearer " +:+ APIKey (config a))
         (Header_Set "Content-Type" "application/json" req)) ;;
  lift (openAIText response).

(** [generateWithClaude] generates commit message using Claude API. *)
Definition generateWithClaude (diff : string) : M string :=
  a <- self ;;
  let baseURL :=
    if String.eqb (BaseURL (config a)) EmptyString
    then "https://api.anthropic.com/v1" else BaseURL (config a) in
  model <- getModel ;;
  let requestBody :=
    VObject (list_to_map
      [ ("model", VString model);
        ("max_tokens", VNumber (200 # 1));
        ("system", VString systemPrompt);
        ("messages", VArray [ message "user" (userPrompt diff) ]) ]) in
  response <- exchange (baseURL +:+ "/messages") requestBody
    (fun req =>
       Header_Set "anthropic-version" "2023-06-01"
         (Header_Set "x-api-key" (APIKey (config a))
            (Header_Set "Content-Type" "application/json" req))) ;;
  lift (claudeText response).

(** [generateWithOllama] generates commit message using local Ollama. *)
Definition generateWithOllama (diff : string) : M string :=
  a <- self ;;
  let baseURL :=
    if String.eqb (BaseURL (config a)) EmptyString
    then "http://localhost:11434" else BaseURL (config a) in
  model <- getModel ;;
  let model := if String.eqb model EmptyString then "llama2" else model in
  let requestBody :=
    VObject (list_to_map
      [ ("model", VString model);
        ("prompt", VString (ollamaPrompt diff));
        ("stream", VBool false) ]) in
  response <- exchange (baseURL +:+ "/api/generate") requestBody
    (fun req => Header_Set "Content-Type" "application/json" req) ;;
  lift (ollamaText response).

(** [GenerateCommitMessage] generates a commit message based on git
    diff. *)
Definition GenerateCommitMessage (diff : string) : M string :=
  a <- self ;;
  if String.eqb (strings.TrimSpace diff) EmptyString
  then fail "diff is empty"
  else if String.eqb (APIKey (config a)) EmptyString
            && negb (String.eqb (Provider (config a)) ProviderOllama)
  then fail ("API key is required for " +:+ Provider (config a))
  else if String.eqb (Provider (config a)) ProviderOpenAI
  then generateWithOpenAI diff
  else if String.eqb (Provider (config a)) ProviderClaude
  then generateWithClaude diff
  else if String.eqb (Provider (config a)) ProviderOllama
  then generateWithOllama diff
  else fail ("unsupported AI provider: " +:+ Provider (config a)).

End WithLibraries.

End ai.

(** * The [strings] model on literal inputs *)

Example Split_lines :
  strings.Split ("M  a.go" +:+ LF +:+ "?? b.go" +:+ LF) LF
  = ["M  a.go"; "?? b.go"; ""].
Proof. reflexivity. Qed.

Example Split_rename :
  strings.Split "old.txt -> new.txt" "->" = ["old.txt "; " new.txt"].
Proof. reflexivity. Qed.

Example resolvePath_rename : git.resolvePath "old.txt -> new.txt" = "new.txt".
Proof. reflexivity. Qed.

Example TrimSpace_ascii :
  strings.TrimSpace ("  feat: x " +:+ LF) = "feat: x".
Proof. reflexivity. Qed.

(** U+2003 (em space) in front and U+00A0 (no-break space) behind. *)
Example TrimSpace_unicode :
  strings.TrimSpace (strings.bytes [226; 128; 131]%nat +:+ "fix"
                       +:+ strings.bytes [194; 160]%nat) = "fix".
Proof. reflexivity. Qed.

Example Fields_branch_line :
  strings.Fields "## main...origin/main [ahead 1]"
  = ["##"; "main...origin/main"; "[ahead"; "1]"].
Proof. reflexivity. Qed.

Example Fields_blank : strings.Fields "   " = [].
Proof. reflexivity. Qed.

Example TrimSuffix_newline :
  strings.TrimSuffix (" M a.go" +:+ LF) LF = " M a.go".
Proof. reflexivity. Qed.

Lemma split_go_nonempty (sep s : string) :
  forall skip cur, strings.split_go sep skip cur s <> [].
Proof.
  induction s as [|c s IH]; intros skip cur.
  - discriminate.
  - cbn [strings.split_go]. destruct skip as [|k]; [|apply IH].
    destruct (String.prefix sep (String c s)); [discriminate|apply IH].
Qed.

Lemma Split_nonempty (s sep : string) : strings.Split s sep <> [].
Proof. apply split_go_nonempty. Qed.

(** * Properties of the status translator *)

Section StatusProperties.

Variable gitExec : string -> list string -> string * option string.

Lemma statusLine_HasChanges (status : GitStatus) (line : string) :
  HasChanges (git.statusLine status line) = HasChanges status.
Proof.
  unfold git.statusLine.
  repeat (case_match; simpl; try reflexivity).
Qed.

Lemma fold_statusLine_HasChanges (lines : list string) :
  forall status,
    HasChanges (fold_left git.statusLine lines status) = HasChanges status.
Proof.
  induction lines as [|line lines IH]; intros status; simpl.
  - reflexivity.
  - rewrite IH. apply statusLine_HasChanges.
Qed.

(** What [GetStatus] returns, in terms of the porcelain text: the flag is
    set from the text alone, the lists from its lines. *)
Lemma GetStatus_inv (g : git.GitService) (st : GitStatus) :
  git.GetStatus gitExec g = Ok st ->
  exists status0,
    Staged status0 = [] /\ Unstaged status0 = [] /\ Untracked status0 = [] /\
    snd (git.porcelain gitExec g) = None /\
    let output := fst (git.porcelain gitExec g) in
    (output = EmptyString -> st = setHasChanges false status0) /\
    (output <> EmptyString ->
     st = fold_left git.statusLine (strings.Split output LF)
            (setHasChanges true status0)).
Proof.
  unfold git.GetStatus. intros H.
  destruct (String.eqb (git.currentPath g) EmptyString); [discriminate|].
  destruct (git.runGitCommand gitExec g ["rev-parse"; "--abbrev-ref"; "HEAD"])
    as [branch berr].
  destruct (git.runGitCommand gitExec g ["status"; "-sb"]) as [bs bserr].
  set (s1 := match berr with
             | Some _ => _
             | None => _
             end) in H.
  assert (Hs1 : Staged s1 = [] /\ Unstaged s1 = [] /\ Untracked s1 = [])
    by (subst s1; destruct berr; simpl; auto).
  clearbody s1.
  set (wb := if negb _ then _ else _) in H.
  assert (Hwb : forall s2, wb = Ok s2 ->
              Staged s2 = [] /\ Unstaged s2 = [] /\ Untracked s2 = []).
  { subst wb. intros s2 Hs2.
    destruct (negb _); [destruct (strings.Fields bs)|]; simplify_eq;
      simpl; tauto. }
  clearbody wb.
  destruct wb as [s2| |]; try discriminate.
  destruct (Hwb s2 eq_refl) as (Ha & Hb & Hc).
  destruct (git.porcelain gitExec g) as [output [e|]] eqn:Hp; [discriminate|].
  exists s2. simpl. repeat split; try assumption.
  - intros ->. simpl in H. congruence.
  - intros Hne. destruct (String.eqb_spec output EmptyString); congruence.
Qed.

End StatusProperties.

(** A repository whose [git] prints [out] for [status --porcelain=v1]:
    the fixture the examples below run [GetStatus] on. *)
Definition fixtureGit (out : string) (dir : string) (args : list string)
  : string * option string :=
  if decide (args = ["status"; "--porcelain=v1"]) then (out, None)
  else if decide (args = ["status"; "-sb"])
       then ("## main...origin/main" +:+ LF +:+ out, None)
       else ("main" +:+ LF, None).

Definition fixtureRepo : git.GitService := git.mkGitService "/home/dev/project".

Definition codeOf (line : string) : string := strings.sliceTo 2 line.

Definition isDeletionCode (code : string) : Prop := code = " D" \/ code = "D ".

Lemma statusLine_deletion (status : GitStatus) (line : string) :
  isDeletionCode (codeOf line) -> git.statusLine status line = status.
Proof.
  unfold git.statusLine, codeOf. intros [-> | ->]; simpl;
    repeat (case_match; try reflexivity).
Qed.

Lemma fold_statusLine_deletions (lines : list string) :
  Forall (fun line => isDeletionCode (codeOf line)) lines ->
  forall status, fold_left git.statusLine lines status = status.
Proof.
  induction 1 as [|line lines Hline _ IH]; intros status; simpl.
  - reflexivity.
  - rewrite (statusLine_deletion _ _ Hline). apply IH.
Qed.

(** [GetStatus] returns a status whenever a repository is selected, the
    porcelain command succeeds and [status -sb] printed a first field. *)
Lemma GetStatus_returns gitExec (g : git.GitService) :
  git.currentPath g <> EmptyString ->
  snd (git.porcelain gitExec g) = None ->
  strings.Fields (fst (git.runGitCommand gitExec g ["status"; "-sb"])) <> [] ->
  exists st, git.GetStatus gitExec g = Ok st.
Proof.
  intros Hpath Hp Hf. unfold git.GetStatus.
  destruct (String.eqb_spec (git.currentPath g) EmptyString); [contradiction|].
  destruct (git.runGitCommand gitExec g ["rev-parse"; "--abbrev-ref"; "HEAD"])
    as [branch berr].
  destruct (git.runGitCommand gitExec g ["status"; "-sb"]) as [bs bserr].
  simpl in Hf.
  destruct (git.porcelain gitExec g) as [output perr]. simpl in Hp. subst perr.
  destruct (strings.Fields bs) as [|f fs] eqn:Hfs; [contradiction|].
  destruct (negb (String.eqb bs EmptyString));
    destruct (String.eqb output EmptyString); eauto.
Qed.

(** C1, as the code has it: [HasChanges] is set exactly when the porcelain
    text is not empty.  A non-empty list therefore implies [HasChanges], and
    an empty text gives [HasChanges = false] with the three lists empty;
    the text is compared as [runGitCommand] returns it, without trimming. *)
Theorem GetStatus_HasChanges_iff_output
    gitExec (g : git.GitService) (st : GitStatus) :
  git.GetStatus gitExec g = Ok st ->
  let output := fst (git.porcelain gitExec g) in
  (HasChanges st = true <-> output <> EmptyString) /\
  (Staged st <> [] \/ Unstaged st <> [] \/ Untracked st <> [] ->
   HasChanges st = true) /\
  (output = EmptyString ->
   HasChanges st = false /\
   Staged st = [] /\ Unstaged st = [] /\ Untracked st = []).
Proof.
  intros H output.
  destruct (GetStatus_inv gitExec g st H)
    as (s0 & Ha & Hb & Hc & _ & Hempty & Hfull).
  fold output in Hempty, Hfull.
  destruct (decide (output = EmptyString)) as [He|Hne].
  - specialize (Hempty He). subst st. simpl.
    repeat split; try assumption; try congruence.
    rewrite Ha, Hb, Hc. intros [?|[?|?]]; congruence.
  - specialize (Hfull Hne).
    assert (Hh : HasChanges st = true)
      by (subst st; apply fold_statusLine_HasChanges).
    repeat split; auto; contradiction.
Qed.

Definition deletedOnly : string := " D gone.txt" +:+ LF.

Lemma GetStatus_HasChanges_iff_output_witness :
  let st := mkGitStatus "##" [] [] [] true true in
  git.GetStatus (fixtureGit deletedOnly) fixtureRepo = Ok st /\
  (HasChanges st = true <->
   fst (git.porcelain (fixtureGit deletedOnly) fixtureRepo) <> EmptyString).
Proof.
  split.
  - vm_compute. reflexivity.
  - apply (GetStatus_HasChanges_iff_output (fixtureGit deletedOnly) fixtureRepo).
    vm_compute. reflexivity.
Defined.

(** C1 fails as stated: for the porcelain text [" D gone.txt"] the status
    has [HasChanges = true] while the three lists are empty. *)
Lemma HasChanges_without_listed_change :
  exists st,
    git.GetStatus (fixtureGit deletedOnly) fixtureRepo = Ok st /\
    HasChanges st = true /\
    Staged st = [] /\ Unstaged st = [] /\ Untracked st = [].
Proof.
  eexists. vm_compute. repeat split; reflexivity.
Qed.

(** C2, as the code has it: a line ["MM PATH"] is appended to the staged
    list with the status "Modified (staged and unstaged)", and the same
    change is appended to the unstaged list as well; the untracked list is
    left alone. *)
Theorem statusLine_MM_staged_and_unstaged (status : GitStatus) (path : string) :
  let change :=
    mkFileChange (git.resolvePath path) (git.getStatusDescription "MM") 0 0 in
  let status' := git.statusLine status ("MM " +:+ path) in
  Status change = "Modified (staged and unstaged)" /\
  Staged status' = Staged status ++ [change] /\
  Unstaged status' = Unstaged status ++ [change] /\
  Untracked status' = Untracked status.
Proof.
  intros change status'. subst status'.
  change ("MM " +:+ path) with (String "M" (String "M" (String " " path))).
  unfold git.statusLine.
  cbn [String.eqb String.length Nat.leb strings.sliceTo strings.sliceFrom
       substring byteAt String.get default Ascii.eqb Bool.eqb orb andb negb].
  repeat split.
Qed.

(** C2 fails as stated: after the single line ["MM file.go"] the file is in
    the unstaged list too. *)
Lemma MM_line_is_also_unstaged :
  exists st,
    git.GetStatus (fixtureGit ("MM file.go" +:+ LF)) fixtureRepo = Ok st /\
    Staged st = [mkFileChange "file.go" "Modified (staged and unstaged)" 0 0] /\
    Unstaged st = [mkFileChange "file.go" "Modified (staged and unstaged)" 0 0].
Proof.
  eexists. vm_compute. repeat split; reflexivity.
Qed.

(** C10: a line whose status code is [" D"] or ["D "] changes none of the
    three lists, although [getStatusDescription] names these codes
    "Deleted" and "Deleted (staged)"; a porcelain text made of such lines
    only leaves the three lists of the returned status empty. *)
Theorem deletion_lines_in_no_list (lines : list string) :
  Forall (fun line => isDeletionCode (codeOf line)) lines ->
  git.getStatusDescription " D" = "Deleted" /\
  git.getStatusDescription "D " = "Deleted (staged)" /\
  Forall (fun line => forall status,
            Staged (git.statusLine status line) = Staged status /\
            Unstaged (git.statusLine status line) = Unstaged status /\
            Untracked (git.statusLine status line) = Untracked status) lines /\
  (forall gitExec g st,
      git.GetStatus gitExec g = Ok st ->
      strings.Split (fst (git.porcelain gitExec g)) LF = lines ->
      Staged st = [] /\ Unstaged st = [] /\ Untracked st = []).
Proof.
  intros Hdel. split; [reflexivity|]. split; [reflexivity|]. split.
  - eapply Forall_impl; [exact Hdel|]. intros line Hline status. simpl in Hline.
    rewrite (statusLine_deletion status line Hline). auto.
  - intros gitExec g st H Hlines.
    destruct (GetStatus_inv gitExec g st H)
      as (s0 & Ha & Hb & Hc & _ & Hempty & Hfull).
    destruct (decide (fst (git.porcelain gitExec g) = EmptyString)) as [He|Hne].
    + rewrite (Hempty He). simpl. auto.
    + rewrite (Hfull Hne), Hlines, (fold_statusLine_deletions lines Hdel).
      simpl. auto.
Qed.

Definition deletionLines : list string := [" D gone.txt"; "D  old.go"].

Lemma deletion_lines_in_no_list_witness :
  Forall (fun line => isDeletionCode (codeOf line)) deletionLines /\
  exists st,
    git.GetStatus (fixtureGit (strings.Join deletionLines LF +:+ LF)) fixtureRepo
    = Ok st /\
    Staged st = [] /\ Unstaged st = [] /\ Untracked st = [].
Proof.
  assert (Hdel : Forall (fun line => isDeletionCode (codeOf line)) deletionLines).
  { constructor; [left; reflexivity|].
    constructor; [right; reflexivity|]. constructor. }
  split; [exact Hdel|].
  eexists. split; [vm_compute; reflexivity|].
  destruct (deletion_lines_in_no_list deletionLines Hdel) as (_ & _ & _ & Hst).
  eapply (Hst (fixtureGit (strings.Join deletionLines LF +:+ LF)) fixtureRepo);
    vm_compute; reflexivity.
Defined.

(** * Properties of the AI gateway *)

(** The text the provider generated, read off the decoded response along
    the path the provider documents: [choices[0].message.content] for the
    ChatCompletion API, [content[0].text] for the Messages API and
    [response] for the local generation API. *)
Definition field (key : string) (v : option Value) : option Value :=
  m ← asObject v; m !! key.

Definition item (i : nat) (v : option Value) : option Value :=
  a ← asArray v; a !! i.

Definition extractedText (provider : AIProvider) (response : gmap string Value)
  : option string :=
  if decide (provider = ProviderOpenAI)
  then asString (field "content" (field "message" (item 0 (response !! "choices"))))
  else if decide (provider = ProviderClaude)
  then asString (field "text" (item 0 (response !! "content")))
  else if decide (provider = ProviderOllama)
  then asString (response !! "response")
  else None.

(** ** A mock transport and stand-ins for the libraries *)

Module Mock.

Definition quoted (s : string) : string := ai.DQ +:+ s +:+ ai.DQ.

(** A client that answers every request with the same response. *)
Definition answering (status : Z) (body : string) : ai.Client :=
  fun _ => Ok (mkResponse status (Ok body)).

Definition json_Marshal (v : Value) : Result string := Ok "{}".

Definition http_NewRequest (method url body : string) : Result Request :=
  Ok (mkRequest method url ∅ body).

(** The response bodies of the examples, with what they decode to. *)
Definition blankOllama : string :=
  "{" +:+ quoted "response" +:+ ":" +:+ quoted "  " +:+ "}".

Definition numericChoice : string :=
  "{" +:+ quoted "choices" +:+ ":[1]}".

Definition numericText : string :=
  "{" +:+ quoted "content" +:+ ":[{" +:+ quoted "text" +:+ ":5}]}".

Definition feat : string :=
  "{" +:+ quoted "response" +:+ ":" +:+ quoted " feat: add parser " +:+ "}".

Definition json_Unmarshal (body : string) : Result (gmap string Value) :=
  if decide (body = blankOllama)
  then Ok {[ "response" := VString "  " ]}
  else if decide (body = numericChoice)
  then Ok {[ "choices" := VArray [VNumber (1 # 1)] ]}
  else if decide (body = numericText)
  then Ok {[ "content" := VArray [VObject {[ "text" := VNumber (5 # 1) ]}] ]}
  else if decide (body = feat)
  then Ok {[ "response" := VString " feat: add parser " ]}
  else Err "unexpected end of JSON input".

Definition world (cfg : AIConfig) (c : ai.Client) : ai.World :=
  ai.mkWorld (ai.mkAIService cfg c) [].

Definition GenerateCommitMessage : string -> ai.M string :=
  ai.GenerateCommitMessage json_Marshal json_Unmarshal http_NewRequest.

End Mock.

Definition sampleDiff : string :=
  "diff --git a/parser.go b/parser.go" +:+ LF +:+ "+func parse() {}" +:+ LF.


Lemma bind_Ok {A B} (c : ai.M A) (k : A -> ai.M B) w b w' :
  ai.bind c k w = (Ok b, w') ->
  exists a w1, c w = (Ok a, w1) /\ k a w1 = (Ok b, w').
Proof.
  unfold ai.bind. destruct (c w) as [[a| |] w1]; intros H; try discriminate.
  eauto.
Qed.

Lemma getModel_pure (w : ai.World) : exists m, ai.getModel w = (Ok m, w).
Proof.
  unfold ai.getModel, ai.bind, ai.self, ai.ret.
  repeat case_match; eauto.
Qed.

Lemma openAIText_Ok (response : gmap string Value) (s : string) :
  ai.openAIText response = Ok s ->
  s = strings.TrimSpace
        (default EmptyString (extractedText ProviderOpenAI response)).
Proof.
  unfold ai.openAIText, extractedText, field, item.
  rewrite decide_True by reflexivity.
  destruct (response !! "choices") as [[| | | |[|c0 cs]|]|]; simpl;
    try discriminate.
  destruct c0 as [| | | | |choice]; simpl; try discriminate.
  destruct (choice !! "message") as [[| | | | |msg]|]; simpl; try discriminate.
  intros H. inversion H. reflexivity.
Qed.

Lemma claudeText_Ok (response : gmap string Value) (s : string) :
  ai.claudeText response = Ok s ->
  exists text, extractedText ProviderClaude response = Some text /\
               s = strings.TrimSpace text.
Proof.
  unfold ai.claudeText, extractedText, field, item.
  rewrite decide_False by discriminate. rewrite decide_True by reflexivity.
  destruct (response !! "content") as [[| | | |[|c0 cs]|]|]; simpl;
    try discriminate.
  destruct c0 as [| | | | |block]; simpl; try discriminate.
  destruct (block !! "text") as [[| | |text| |]|]; simpl; try discriminate.
  intros H. inversion H. eauto.
Qed.

Lemma ollamaText_Ok (response : gmap string Value) (s : string) :
  ai.ollamaText response = Ok s ->
  exists text, extractedText ProviderOllama response = Some text /\
               s = strings.TrimSpace text.
Proof.
  unfold ai.ollamaText, extractedText.
  do 2 rewrite decide_False by discriminate. rewrite decide_True by reflexivity.
  destruct (response !! "response") as [[| | |text| |]|]; simpl;
    try discriminate.
  intros H. inversion H. eauto.
Qed.

(** The back end for the local generation API never panics on a decoded
    response, whatever its shape. *)
Lemma ollamaText_no_panic (response : gmap string Value) :
  isPanic (ai.ollamaText response) = false.
Proof.
  unfold ai.ollamaText. destruct (asString _); reflexivity.
Qed.

(** The unchecked assertion on [choices[0]]: any first choice that is not an
    object makes the ChatCompletion back end panic. *)
Lemma openAIText_panics (response : gmap string Value) (c0 : Value) cs :
  response !! "choices" = Some (VArray (c0 :: cs)) ->
  asObject (Some c0) = None ->
  ai.openAIText response = Panic ai.notAMap.
Proof.
  intros Hc Hobj. unfold ai.openAIText. rewrite Hc. simpl asArray.
  cbv beta iota. rewrite Hobj. reflexivity.
Qed.

Section GatewayProperties.

Variable json_Marshal : Value -> Result string.
Variable json_Unmarshal : string -> Result (gmap string Value).
Variable http_NewRequest : string -> string -> string -> Result Request.

Abbreviation GenerateCommitMessage :=
  (ai.GenerateCommitMessage json_Marshal json_Unmarshal http_NewRequest).

(** A successful exchange sent exactly one request, got status 200 and a
    body that decodes to the returned map. *)
Lemma exchange_Ok url requestBody headers w response w' :
  ai.exchange json_Marshal json_Unmarshal http_NewRequest
    url requestBody headers w = (Ok response, w') ->
  exists req resp body,
    w' = ai.mkWorld (ai.service w) (ai.sent w ++ [req]) /\
    ai.client (ai.service w) req = Ok resp /\
    StatusCode resp = StatusOK /\
    ReadAll resp = Ok body /\
    json_Unmarshal body = Ok response.
Proof.
  unfold ai.exchange. intros H.
  apply bind_Ok in H as (jsonData & w1 & H1 & H).
  apply bind_Ok in H as (req & w2 & H2 & H).
  apply bind_Ok in H as (resp & w3 & H3 & H).
  apply bind_Ok in H as (body & w4 & H4 & H).
  unfold ai.lift in H1, H2, H4. unfold ai.client_Do in H3.
  inversion H1; subst w1; clear H1.
  inversion H2; subst w2; clear H2.
  inversion H4; subst w4; clear H4.
  inversion H3 as [[Hdo Hw3]]; clear H3.
  destruct (ai.client (ai.service w) (headers req)) as [r| |] eqn:Hc;
    try discriminate.
  simpl in Hdo. inversion Hdo; subst r.
  destruct (ReadAll resp) as [b| |] eqn:Hb; try discriminate.
  match goal with Hx : wrapErr _ (Ok b) = Ok body |- _ =>
    simpl in Hx; inversion Hx; subst b end.
  destruct (StatusCode resp =? StatusOK) eqn:Hs; simpl in H.
  - unfold ai.lift in H. inversion H as [[Hu Hw]].
    destruct (json_Unmarshal body) as [m| |] eqn:Hm; try discriminate.
    simpl in Hu. inversion Hu; subst m.
    exists (headers req), resp, body. subst w3.
    repeat split; auto. by apply Z.eqb_eq.
  - discriminate.
Qed.

(** What a successful generation returned, and from what. *)
Definition generated (w w' : ai.World) (s : string) : Prop :=
  let provider := Provider (ai.config (ai.service w)) in
  exists req resp body response,
    ai.service w' = ai.service w /\
    ai.sent w' = ai.sent w ++ [req] /\
    ai.client (ai.service w) req = Ok resp /\
    StatusCode resp = StatusOK /\
    ReadAll resp = Ok body /\
    json_Unmarshal body = Ok response /\
    s = strings.TrimSpace
          (default EmptyString (extractedText provider response)) /\
    (provider <> ProviderOpenAI ->
     is_Some (extractedText provider response)).

Lemma generateWithOpenAI_Ok diff w s w' :
  Provider (ai.config (ai.service w)) = ProviderOpenAI ->
  ai.generateWithOpenAI json_Marshal json_Unmarshal http_NewRequest diff w
  = (Ok s, w') ->
  generated w w' s.
Proof.
  intros Hp H. unfold ai.generateWithOpenAI in H.
  apply bind_Ok in H as (a & w1 & H1 & H).
  unfold ai.self in H1. inversion H1; subst a w1; clear H1.
  apply bind_Ok in H as (model & w2 & H2 & H).
  destruct (getModel_pure w) as (m & Hm). rewrite Hm in H2.
  inversion H2; subst m w2; clear H2.
  apply bind_Ok in H as (response & w3 & H3 & H).
  apply exchange_Ok in H3 as (req & resp & body & -> & Hc & Hs & Hb & Hu).
  unfold ai.lift in H. inversion H as [[Ht Hw]]. subst w'.
  exists req, resp, body, response. rewrite Hp.
  repeat split; auto.
  - by apply openAIText_Ok.
  - intros Hne. contradiction.
Qed.

Lemma generateWithClaude_Ok diff w s w' :
  Provider (ai.config (ai.service w)) = ProviderClaude ->
  ai.generateWithClaude json_Marshal json_Unmarshal http_NewRequest diff w
  = (Ok s, w') ->
  generated w w' s.
Proof.
  intros Hp H. unfold ai.generateWithClaude in H.
  apply bind_Ok in H as (a & w1 & H1 & H).
  unfold ai.self in H1. inversion H1; subst a w1; clear H1.
  apply bind_Ok in H as (model & w2 & H2 & H).
  destruct (getModel_pure w) as (m & Hm). rewrite Hm in H2.
  inversion H2; subst m w2; clear H2.
  apply bind_Ok in H as (response & w3 & H3 & H).
  apply exchange_Ok in H3 as (req & resp & body & -> & Hc & Hs & Hb & Hu).
  unfold ai.lift in H. inversion H as [[Ht Hw]]. subst w'.
  apply claudeText_Ok in Ht as (text & Hx & ->).
  exists req, resp, body, response. rewrite Hp, Hx.
  repeat split; eauto.
Qed.

Lemma generateWithOllama_Ok diff w s w' :
  Provider (ai.config (ai.service w)) = ProviderOllama ->
  ai.generateWithOllama json_Marshal json_Unmarshal http_NewRequest diff w
  = (Ok s, w') ->
  generated w w' s.
Proof.
  intros Hp H. unfold ai.generateWithOllama in H.
  apply bind_Ok in H as (a & w1 & H1 & H).
  unfold ai.self in H1. inversion H1; subst a w1; clear H1.
  apply bind_Ok in H as (model & w2 & H2 & H).
  destruct (getModel_pure w) as (m & Hm). rewrite Hm in H2.
  inversion H2; subst m w2; clear H2.
  apply bind_Ok in H as (response & w3 & H3 & H).
  apply exchange_Ok in H3 as (req & resp & body & -> & Hc & Hs & Hb & Hu).
  unfold ai.lift in H. inversion H as [[Ht Hw]]. subst w'.
  apply ollamaText_Ok in Ht as (text & Hx & ->).
  exists req, resp, body, response. rewrite Hp, Hx.
  repeat split; eauto.
Qed.

(** X30: the gateway's own credential check: with no API key and a
    provider other than "ollama", a non-blank diff is refused with "API key
    is required for ..." before anything is sent. *)
Lemma GenerateCommitMessage_missing_credential (diff : string) (w : ai.World) :
  strings.TrimSpace diff <> EmptyString ->
  APIKey (ai.config (ai.service w)) = EmptyString ->
  Provider (ai.config (ai.service w)) <> ProviderOllama ->
  GenerateCommitMessage diff w
  = (Err ("API key is required for " +:+ Provider (ai.config (ai.service w))),
     w).
Proof.
  intros Hd Hk Hp. unfold ai.GenerateCommitMessage, ai.bind, ai.self.
  destruct (String.eqb_spec (strings.TrimSpace diff) EmptyString);
    [contradiction|].
  rewrite Hk.
  destruct (String.eqb_spec (Provider (ai.config (ai.service w)))
              ProviderOllama); [contradiction|].
  reflexivity.
Qed.

(** C3: a diff that is empty after trimming white space makes
    [GenerateCommitMessage] fail with "diff is empty", whatever the
    configuration; the world is returned as it was, so no request was
    sent. *)
Theorem GenerateCommitMessage_empty_diff (diff : string) (w : ai.World) :
  strings.TrimSpace diff = EmptyString ->
  GenerateCommitMessage diff w = (Err "diff is empty", w) /\
  ai.sent (snd (GenerateCommitMessage diff w)) = ai.sent w.
Proof.
  intros H.
  assert (E : GenerateCommitMessage diff w = (Err "diff is empty", w)).
  { unfold ai.GenerateCommitMessage, ai.bind, ai.self.
    rewrite H. reflexivity. }
  rewrite E. split; reflexivity.
Qed.


End GatewayProperties.

Definition blankDiff : string := "  " +:+ LF +:+ strings.bytes [9%nat].

Definition openAIWithKey : AIConfig := mkAIConfig ProviderOpenAI "sk-test" "" "".
Definition claudeWithKey : AIConfig := mkAIConfig ProviderClaude "sk-test" "" "".
Definition localOllama : AIConfig := mkAIConfig ProviderOllama "" "" "".
Definition geminiConfig : AIConfig := mkAIConfig "gemini" "sk-test" "" "".

Lemma GenerateCommitMessage_empty_diff_witness :
  strings.TrimSpace blankDiff = EmptyString /\
  ai.sent (snd (Mock.GenerateCommitMessage blankDiff
                  (Mock.world openAIWithKey (Mock.answering 200 Mock.feat))))
  = [].
Proof.
  split; [vm_compute; reflexivity|].
  apply (GenerateCommitMessage_empty_diff
           Mock.json_Marshal Mock.json_Unmarshal Mock.http_NewRequest
           blankDiff (Mock.world openAIWithKey (Mock.answering 200 Mock.feat))).
  vm_compute. reflexivity.
Defined.



(** C4 at its failing inputs: a 200 response whose [choices[0]] is a number
    makes the ChatCompletion back end panic, and one whose [content[0].text]
    is a number makes the Messages back end panic. *)
Theorem malformed_response_panics :
  fst (Mock.GenerateCommitMessage sampleDiff
         (Mock.world openAIWithKey (Mock.answering 200 Mock.numericChoice)))
  = Panic ai.notAMap /\
  fst (Mock.GenerateCommitMessage sampleDiff
         (Mock.world claudeWithKey (Mock.answering 200 Mock.numericText)))
  = Panic ai.notAString.
Proof. split; vm_compute; reflexivity. Qed.

(** Validation has no case for a provider it does not know. *)
Lemma ValidateConfigParam_unknown_provider (cfg : AIConfig) (w : ai.World) :
  Provider cfg <> ProviderOpenAI ->
  Provider cfg <> ProviderClaude ->
  Provider cfg <> EmptyString ->
  ai.ValidateConfigParam cfg w = (Ok tt, w).
Proof.
  intros Ho Hc He. unfold ai.ValidateConfigParam, ai.bind.
  destruct (String.eqb_spec (Provider cfg) ProviderOpenAI); [contradiction|].
  destruct (String.eqb_spec (Provider cfg) ProviderClaude); [contradiction|].
  destruct (String.eqb_spec (Provider cfg) EmptyString); [contradiction|].
  reflexivity.
Qed.

(** C6 at its failing input: the provider "gemini" passes both validations,
    while the gateway rejects the same configuration as unsupported. *)
Theorem unknown_provider_passes_validation :
  let w := Mock.world geminiConfig (Mock.answering 200 Mock.feat) in
  ai.ValidateConfigParam geminiConfig w = (Ok tt, w) /\
  ai.ValidateConfig w = (Ok tt, w) /\
  Mock.GenerateCommitMessage sampleDiff w
  = (Err "unsupported AI provider: gemini", w).
Proof. repeat split. Qed.

(** C7: with an empty API key, validation accepts the provider "ollama" and
    rejects "openai" and "claude" with "API key is required for ..."; this
    holds for [ValidateConfigParam] on a candidate and for [ValidateConfig]
    on the held configuration. *)
Theorem validation_of_empty_APIKey
    (baseURL model : string) (c : ai.Client) (sent : list Request)
    (w : ai.World) :
  let held cfg := ai.mkWorld (ai.mkAIService cfg c) sent in
  let ollama := mkAIConfig ProviderOllama EmptyString baseURL model in
  let openai := mkAIConfig ProviderOpenAI EmptyString baseURL model in
  let claude := mkAIConfig ProviderClaude EmptyString baseURL model in
  ai.ValidateConfigParam ollama w = (Ok tt, w) /\
  ai.ValidateConfig (held ollama) = (Ok tt, held ollama) /\
  ai.ValidateConfigParam openai w
  = (Err "API key is required for openai", w) /\
  ai.ValidateConfig (held openai)
  = (Err "API key is required for openai", held openai) /\
  ai.ValidateConfigParam claude w
  = (Err "API key is required for claude", w) /\
  ai.ValidateConfig (held claude)
  = (Err "API key is required for claude", held claude).
Proof. repeat split. Qed.

(** C8: [getModel] returns a non-empty [Model] unchanged, and for an empty
    one "gpt-4" for the provider "openai", "claude-3-sonnet-20240229" for
    "claude" and "llama2" for "ollama"; it leaves the world as it was. *)
Theorem getModel_resolution (w : ai.World) :
  let cfg := ai.config (ai.service w) in
  (Model cfg <> EmptyString -> ai.getModel w = (Ok (Model cfg), w)) /\
  (Model cfg = EmptyString ->
   (Provider cfg = ProviderOpenAI -> ai.getModel w = (Ok "gpt-4", w)) /\
   (Provider cfg = ProviderClaude ->
    ai.getModel w = (Ok "claude-3-sonnet-20240229", w)) /\
   (Provider cfg = ProviderOllama -> ai.getModel w = (Ok "llama2", w))).
Proof.
  intros cfg. unfold ai.getModel, ai.bind, ai.self. fold cfg. split.
  - intros Hne. destruct (String.eqb_spec (Model cfg) EmptyString);
      [contradiction|reflexivity].
  - intros ->. repeat split; intros ->; reflexivity.
Qed.

Lemma getModel_resolution_witness :
  ai.getModel (Mock.world claudeWithKey (Mock.answering 200 Mock.feat))
  = (Ok "claude-3-sonnet-20240229",
     Mock.world claudeWithKey (Mock.answering 200 Mock.feat)) /\
  ai.getModel (Mock.world (mkAIConfig ProviderOllama "" "" "mistral")
                 (Mock.answering 200 Mock.feat))
  = (Ok "mistral",
     Mock.world (mkAIConfig ProviderOllama "" "" "mistral")
       (Mock.answering 200 Mock.feat)).
Proof.
  split.
  - apply (getModel_resolution
             (Mock.world claudeWithKey (Mock.answering 200 Mock.feat)));
      reflexivity.
  - apply (getModel_resolution
             (Mock.world (mkAIConfig ProviderOllama "" "" "mistral")
                (Mock.answering 200 Mock.feat))).
    simpl. discriminate.
Defined.

(** C9: [ValidateConfigParam] returns the world it was given: the held
    configuration, field by field, is the same after the call as before,
    whether the candidate is accepted or rejected. *)
Theorem ValidateConfigParam_keeps_held_config (cfg : AIConfig) (w : ai.World) :
  let w' := snd (ai.ValidateConfigParam cfg w) in
  w' = w /\
  Provider (ai.config (ai.service w')) = Provider (ai.config (ai.service w)) /\
  APIKey (ai.config (ai.service w')) = APIKey (ai.config (ai.service w)) /\
  BaseURL (ai.config (ai.service w')) = BaseURL (ai.config (ai.service w)) /\
  Model (ai.config (ai.service w')) = Model (ai.config (ai.service w)).
Proof.
  assert (E : snd (ai.ValidateConfigParam cfg w) = w).
  { unfold ai.ValidateConfigParam, ai.bind, ai.fail, ai.ret, ai.lift.
    repeat case_match; simplify_eq; reflexivity. }
  simpl. rewrite E. repeat split.
Qed.

(** By contrast, [SetConfig] does replace the held configuration. *)
Lemma SetConfig_replaces_config (cfg : AIConfig) (w : ai.World) :
  ai.config (ai.service (snd (ai.SetConfig cfg w))) = cfg.
Proof. reflexivity. Qed.

(** * More about the [strings] model

    Facts on [Split], [Join] and [TrimSpace] that the properties of the
    remaining functions rest on. *)

Fixpoint hasByte (c : ascii) (s : string) : bool :=
  match s with
  | EmptyString => false
  | String a s' => Ascii.eqb a c || hasByte c s'
  end.

Lemma append_cons (a : ascii) (s t : string) :
  String a s +:+ t = String a (s +:+ t).
Proof. reflexivity. Qed.

Lemma append_empty_r (s : string) : s +:+ EmptyString = s.
Proof.
  induction s as [|a s IH]; [reflexivity|].
  rewrite append_cons, IH. reflexivity.
Qed.

Lemma append_assoc (s t u : string) : (s +:+ t) +:+ u = s +:+ (t +:+ u).
Proof.
  induction s as [|a s IH]; [reflexivity|].
  rewrite !append_cons, IH. reflexivity.
Qed.

Lemma rev_app_append (s1 s2 t : string) :
  String.rev_app s1 s2 +:+ t = String.rev_app s1 (s2 +:+ t).
Proof.
  revert s2. induction s1 as [|a s1 IH]; intros s2; simpl; [reflexivity|].
  rewrite IH. reflexivity.
Qed.

Lemma rev_cons_append (a : ascii) (cur t : string) :
  String.rev (String a cur) +:+ t = String.rev cur +:+ String a t.
Proof.
  unfold String.rev. simpl. rewrite !rev_app_append. reflexivity.
Qed.

Lemma hasByte_append (c : ascii) (s t : string) :
  hasByte c (s +:+ t) = hasByte c s || hasByte c t.
Proof.
  induction s as [|a s IH]; [reflexivity|].
  rewrite append_cons. simpl. rewrite IH. apply orb_assoc.
Qed.

Lemma length_append (s t : string) :
  String.length (s +:+ t) = (String.length s + String.length t)%nat.
Proof.
  induction s as [|a s IH]; [reflexivity|].
  rewrite append_cons. simpl. rewrite IH. reflexivity.
Qed.

Section SplitOnByte.

Variable c : ascii.

Abbreviation sep := (String c EmptyString).

Lemma split_go_step (cur : string) (a : ascii) (s : string) :
  strings.split_go sep O cur (String a s)
  = if Ascii.eqb a c
    then String.rev cur :: strings.split_go sep O EmptyString s
    else strings.split_go sep O (String a cur) s.
Proof.
  cbn [strings.split_go String.prefix String.length Nat.sub].
  destruct (Ascii.eqb_spec a c) as [->|Hne];
    destruct s; cbn [String.prefix].
  all: first [ destruct (ascii_dec c c); [reflexivity|contradiction]
             | destruct (ascii_dec c a); [congruence|reflexivity] ].
Qed.

Lemma split_go_free (p : string) :
  hasByte c p = false ->
  forall cur, strings.split_go sep O cur p = [String.rev cur +:+ p].
Proof.
  induction p as [|a p IH]; intros Hp cur.
  - simpl. rewrite append_empty_r. reflexivity.
  - simpl in Hp. apply orb_false_iff in Hp as [Ha Hp].
    rewrite split_go_step, Ha, (IH Hp), rev_cons_append. reflexivity.
Qed.

Lemma split_go_piece (p rest : string) :
  hasByte c p = false ->
  forall cur,
    strings.split_go sep O cur (p +:+ String c rest)
    = (String.rev cur +:+ p) :: strings.split_go sep O EmptyString rest.
Proof.
  induction p as [|a p IH]; intros Hp cur.
  - change (EmptyString +:+ String c rest) with (String c rest).
    rewrite split_go_step, Ascii.eqb_refl.
    rewrite append_empty_r. reflexivity.
  - simpl in Hp. apply orb_false_iff in Hp as [Ha Hp].
    rewrite append_cons, split_go_step, Ha, (IH Hp), rev_cons_append.
    reflexivity.
Qed.

(** Splitting what [Join] glued gives the pieces back, when no piece
    contains the separator byte. *)
Lemma Split_Join (parts : list string) :
  parts <> [] ->
  Forall (fun p => hasByte c p = false) parts ->
  strings.Split (strings.Join parts sep) sep = parts.
Proof.
  unfold strings.Split.
  induction parts as [|p [|q rest] IH]; intros Hne Hall.
  - contradiction.
  - simpl. inversion Hall; subst. rewrite split_go_free by assumption.
    reflexivity.
  - inversion Hall as [|? ? Hp Hrest]; subst.
    change (strings.Join (p :: q :: rest) sep)
      with (p +:+ String c (strings.Join (q :: rest) sep)).
    rewrite split_go_piece by assumption.
    rewrite IH by (auto; discriminate). reflexivity.
Qed.

End SplitOnByte.

(** The bytes the encodings in [spaceRunes] are made of. *)
Definition spaceByte (a : ascii) : bool :=
  existsb (hasByte a) strings.spaceRunes.

Fixpoint allBytes (P : ascii -> bool) (s : string) : bool :=
  match s with
  | EmptyString => true
  | String a s' => P a && allBytes P s'
  end.

(** The first [n] bytes of [s] satisfy [P] ([s] may be shorter). *)
Fixpoint headBytes (P : ascii -> bool) (n : nat) (s : string) : Prop :=
  match n, s with
  | O, _ => True
  | S _, EmptyString => True
  | S n', String a s' => P a = true /\ headBytes P n' s'
  end.

Lemma prefix_headBytes (P : ascii -> bool) (r : string) :
  allBytes P r = true ->
  forall s, String.prefix r s = true -> headBytes P (String.length r) s.
Proof.
  induction r as [|a r IH]; intros Hr s Hpre; [exact I|].
  simpl in Hr. apply andb_true_iff in Hr as [Ha Hr].
  destruct s as [|b s]; [exact I|]. simpl in Hpre.
  destruct (ascii_dec a b) as [->|]; [|discriminate].
  simpl. split; [assumption|]. by apply IH.
Qed.

Lemma spaceWidthIn_headBytes (P : ascii -> bool) (runes : list string) :
  forallb (allBytes P) runes = true ->
  forall s, headBytes P (strings.spaceWidthIn runes s) s.
Proof.
  induction runes as [|r runes IH]; intros Hall s; [exact I|].
  simpl in Hall. apply andb_true_iff in Hall as [Hr Hall]. simpl.
  destruct (String.prefix r s) eqn:Hpre.
  - by apply prefix_headBytes.
  - by apply IH.
Qed.

(** Trimming stops at the first byte no white-space rune contains. *)
Lemma trim_go_stops (P : ascii -> bool) (width : string -> nat) :
  (forall s, headBytes P (width s) s) ->
  forall s skip,
    headBytes P skip s ->
    allBytes P s = false ->
    allBytes P (strings.trim_go width skip s) = false.
Proof.
  intros Hwidth. induction s as [|a s IH]; intros skip Hskip Hs.
  - discriminate.
  - cbn [strings.trim_go]. destruct skip as [|k].
    + specialize (Hwidth (String a s)).
      destruct (width (String a s)) as [|k]; [assumption|].
      simpl in Hs. destruct Hwidth as [Ha Hk]. rewrite Ha in Hs. by apply IH.
    + simpl in Hs. destruct Hskip as [Ha Hk]. rewrite Ha in Hs. by apply IH.
Qed.

Lemma allBytes_rev_app (P : ascii -> bool) (s t : string) :
  allBytes P (String.rev_app s t) = allBytes P s && allBytes P t.
Proof.
  revert t. induction s as [|a s IH]; intros t; [reflexivity|].
  simpl. rewrite IH. simpl. rewrite !andb_assoc.
  f_equal. apply andb_comm.
Qed.

Lemma allBytes_rev (P : ascii -> bool) (s : string) :
  allBytes P (String.rev s) = allBytes P s.
Proof. unfold String.rev. rewrite allBytes_rev_app. apply andb_true_r. Qed.

Lemma allBytes_append (P : ascii -> bool) (s t : string) :
  allBytes P (s +:+ t) = allBytes P s && allBytes P t.
Proof.
  induction s as [|a s IH]; [reflexivity|].
  rewrite append_cons. simpl. rewrite IH. apply andb_assoc.
Qed.

Lemma spaceWidth_headBytes (s : string) :
  headBytes spaceByte (strings.spaceWidth s) s.
Proof. apply spaceWidthIn_headBytes. vm_compute. reflexivity. Qed.

Lemma spaceWidthRev_headBytes (s : string) :
  headBytes spaceByte (strings.spaceWidthRev s) s.
Proof. apply spaceWidthIn_headBytes. vm_compute. reflexivity. Qed.

(** A string with a byte that occurs in no white-space rune does not trim
    to the empty string. *)
Lemma TrimSpace_not_blank (s : string) :
  allBytes spaceByte s = false -> strings.TrimSpace s <> EmptyString.
Proof.
  intros Hs. unfold strings.TrimSpace, strings.TrimRightSpace, strings.TrimLeftSpace.
  assert (H1 : allBytes spaceByte (strings.trim_go strings.spaceWidth O s) = false).
  { apply trim_go_stops; [apply spaceWidth_headBytes|exact I|assumption]. }
  assert (H2 : allBytes spaceByte
                 (strings.trim_go strings.spaceWidthRev O
                    (String.rev (strings.trim_go strings.spaceWidth O s)))
               = false).
  { apply trim_go_stops; [apply spaceWidthRev_headBytes|exact I|].
    by rewrite allBytes_rev. }
  intros E. rewrite <- allBytes_rev, E in H2. discriminate.
Qed.

(** ** The rename arrow *)

Definition arrow : string := "->".

Lemma split_arrow_free (b : string) :
  strings.Contains b arrow = false ->
  forall cur, strings.split_go arrow O cur b = [String.rev cur +:+ b].
Proof.
  induction b as [|c b IH]; intros Hb cur.
  - simpl. rewrite append_empty_r. reflexivity.
  - cbn [strings.Contains] in Hb. cbn [strings.split_go].
    destruct (String.prefix arrow (String c b)); [discriminate|].
    rewrite (IH Hb), rev_cons_append. reflexivity.
Qed.

Lemma last_cons_nonempty {A} (x d : A) (l : list A) :
  l <> [] -> List.last (x :: l) d = List.last l d.
Proof. destruct l; [contradiction|reflexivity]. Qed.

Lemma arrow_prefix (b : string) :
  String.prefix arrow (String "-" (String ">" b)) = true.
Proof. destruct b; reflexivity. Qed.

Lemma split_go_match (sep cur : string) (c : ascii) (s : string) :
  String.prefix sep (String c s) = true ->
  strings.split_go sep O cur (String c s)
  = String.rev cur
      :: strings.split_go sep (String.length sep - 1) EmptyString s.
Proof. intros H. cbn [strings.split_go]. rewrite H. reflexivity. Qed.

Lemma split_go_miss (sep cur : string) (c : ascii) (s : string) :
  String.prefix sep (String c s) = false ->
  strings.split_go sep O cur (String c s)
  = strings.split_go sep O (String c cur) s.
Proof. intros H. cbn [strings.split_go]. rewrite H. reflexivity. Qed.

Lemma split_arrow_last (b : string) :
  strings.Contains b arrow = false ->
  forall a skip cur,
    (skip <= String.length a)%nat ->
    List.last (strings.split_go arrow skip cur (a +:+ arrow +:+ b)) EmptyString
    = b.
Proof.
  intros Hb. induction a as [|c a IH]; intros skip cur Hskip.
  - assert (skip = O) as -> by (simpl in Hskip; lia).
    change (EmptyString +:+ arrow +:+ b) with (String "-" (String ">" b)).
    rewrite split_go_match by apply arrow_prefix.
    change (String.length arrow - 1)%nat with 1%nat.
    change (strings.split_go arrow 1 EmptyString (String ">" b))
      with (strings.split_go arrow O EmptyString b).
    rewrite (split_arrow_free b Hb). reflexivity.
  - rewrite append_cons. destruct skip as [|k].
    + destruct (String.prefix arrow (String c (a +:+ arrow +:+ b))) eqn:Hpre.
      * rewrite split_go_match by assumption.
        rewrite last_cons_nonempty by apply split_go_nonempty.
        apply IH. destruct a as [|c' a]; [|simpl; lia].
        exfalso. revert Hpre.
        change (EmptyString +:+ arrow +:+ b) with (String "-" (String ">" b)).
        cbn [String.prefix arrow].
        destruct (ascii_dec "-" c); [|discriminate].
        destruct (ascii_dec ">" "-"); discriminate.
      * rewrite split_go_miss by assumption. apply IH. lia.
    + change (strings.split_go arrow (S k) cur (String c (a +:+ arrow +:+ b)))
        with (strings.split_go arrow k cur (a +:+ arrow +:+ b)).
      apply IH. simpl in Hskip. lia.
Qed.

Lemma Contains_arrow (a b : string) :
  strings.Contains (a +:+ arrow +:+ b) arrow = true.
Proof.
  induction a as [|c a IH].
  - change (EmptyString +:+ arrow +:+ b) with (String "-" (String ">" b)).
    cbn [strings.Contains]. rewrite arrow_prefix. reflexivity.
  - rewrite append_cons. cbn [strings.Contains].
    destruct (String.prefix arrow _); [reflexivity|exact IH].
Qed.

(** The path of a rename is the text after the last arrow, trimmed. *)
Lemma resolvePath_rename_target (old new : string) :
  strings.Contains new arrow = false ->
  git.resolvePath (old +:+ arrow +:+ new) = strings.TrimSpace new.
Proof.
  intros Hnew. unfold git.resolvePath.
  change "->" with arrow. rewrite Contains_arrow.
  unfold strings.Split. rewrite split_arrow_last by (assumption || lia).
  reflexivity.
Qed.

(** ** The status lists, line by line *)

Definition indexState (line : string) : ascii := byteAt line 0.
Definition worktreeState (line : string) : ascii := byteAt line 1.

(** Lines of at least three bytes are the ones [GetStatus] reads. *)
Definition parsable (line : string) : bool := (3 <=? String.length line)%nat.

Definition changeOf (line : string) : FileChange :=
  mkFileChange (git.resolvePath (strings.sliceFrom 3 line))
    (git.getStatusDescription (strings.sliceTo 2 line)) 0 0.

Definition pathOf (line : string) : string :=
  git.resolvePath (strings.sliceFrom 3 line).

Definition stagedLine (line : string) : bool :=
  parsable line
  && existsb (Ascii.eqb (indexState line)) ["M"; "A"; "R"; "C"]%char.

Definition untrackedLine (line : string) : bool :=
  parsable line && Ascii.eqb (indexState line) "?".

Definition unstagedLine (line : string) : bool :=
  parsable line && Ascii.eqb (worktreeState line) "M"
  && negb (Ascii.eqb (indexState line) "?").

Definition keepIf {A} (b : bool) (x : A) : list A := if b then [x] else [].

Lemma statusLine_lists (status : GitStatus) (line : string) :
  git.statusLine status line
  = mkGitStatus (Branch status)
      (Staged status ++ keepIf (stagedLine line) (changeOf line))
      (Unstaged status ++ keepIf (unstagedLine line) (changeOf line))
      (Untracked status ++ keepIf (untrackedLine line) (pathOf line))
      (IsRepo status) (HasChanges status).
Proof.
  destruct status as [br sg us ut ir hc].
  unfold stagedLine, unstagedLine, untrackedLine, parsable, indexState,
    worktreeState.
  destruct line as [|x [|y [|z rest]]];
    try (cbn; rewrite !app_nil_r; reflexivity).
  unfold git.statusLine, changeOf, pathOf.
  cbv [byteAt default from_option id String.get strings.sliceTo substring
       String.eqb String.length Nat.leb existsb andb].
  set (p := git.resolvePath _). set (d := git.getStatusDescription _).
  destruct (Ascii.eqb x "M"); destruct (Ascii.eqb x "A");
    destruct (Ascii.eqb x "R"); destruct (Ascii.eqb x "C");
    destruct (Ascii.eqb x "?"); destruct (Ascii.eqb y "M");
    destruct (Ascii.eqb y "?");
    cbn [orb andb negb keepIf appendStaged appendUnstaged appendUntracked
         Branch Staged Unstaged Untracked IsRepo HasChanges];
    rewrite ?app_nil_r; reflexivity.
Qed.

Lemma fold_statusLine_lists (lines : list string) :
  forall status,
    fold_left git.statusLine lines status
    = mkGitStatus (Branch status)
        (Staged status ++ map changeOf (List.filter stagedLine lines))
        (Unstaged status ++ map changeOf (List.filter unstagedLine lines))
        (Untracked status ++ map pathOf (List.filter untrackedLine lines))
        (IsRepo status) (HasChanges status).
Proof.
  induction lines as [|line lines IH]; intros status.
  - simpl. rewrite !app_nil_r. by destruct status.
  - cbn [fold_left]. rewrite IH, statusLine_lists.
    cbn [Branch Staged Unstaged Untracked IsRepo HasChanges List.filter].
    unfold keepIf.
    destruct (stagedLine line), (unstagedLine line), (untrackedLine line);
      cbn [map]; rewrite <- ?app_assoc, ?app_nil_r; reflexivity.
Qed.

(** X1: the three lists of the status [GetStatus] returns are, in the order
    of the porcelain lines, the changes of the lines whose index byte is
    one of M, A, R, C (staged), of the lines whose worktree byte is M and
    whose index byte is not '?' (unstaged), and the paths of the lines
    whose index byte is '?' (untracked); lines shorter than three bytes
    contribute nothing. *)
Theorem GetStatus_lists gitExec (g : git.GitService) (st : GitStatus) :
  git.GetStatus gitExec g = Ok st ->
  let lines := strings.Split (fst (git.porcelain gitExec g)) LF in
  Staged st = map changeOf (List.filter stagedLine lines) /\
  Unstaged st = map changeOf (List.filter unstagedLine lines) /\
  Untracked st = map pathOf (List.filter untrackedLine lines).
Proof.
  intros H lines.
  destruct (GetStatus_inv gitExec g st H)
    as (s0 & Ha & Hb & Hc & _ & Hempty & Hfull).
  destruct (decide (fst (git.porcelain gitExec g) = EmptyString)) as [He|Hne].
  - subst lines. rewrite (Hempty He), He. simpl. auto.
  - rewrite (Hfull Hne), fold_statusLine_lists. simpl.
    rewrite Ha, Hb, Hc. auto.
Qed.

Definition mixedPorcelain : string :=
  "M  a.go" +:+ LF +:+ " M b.go" +:+ LF +:+ "?? c.go" +:+ LF +:+ "x" +:+ LF.

Lemma GetStatus_lists_witness :
  exists st,
    git.GetStatus (fixtureGit mixedPorcelain) fixtureRepo = Ok st /\
    Staged st = [mkFileChange "a.go" "Staged" 0 0] /\
    Unstaged st = [mkFileChange "b.go" "Modified" 0 0] /\
    Untracked st = ["c.go"].
Proof.
  eexists. split; [vm_compute; reflexivity|].
  pose proof (GetStatus_lists (fixtureGit mixedPorcelain) fixtureRepo _
                ltac:(vm_compute; reflexivity)) as H.
  exact H.
Defined.

(** X2: a line whose index byte is '?' adds its path to the untracked list
    and to no other list, whatever its worktree byte is. *)
Theorem untracked_line_only_untracked (status : GitStatus) (line : string) :
  (3 <= String.length line)%nat ->
  byteAt line 0 = "?"%char ->
  Staged (git.statusLine status line) = Staged status /\
  Unstaged (git.statusLine status line) = Unstaged status /\
  Untracked (git.statusLine status line)
  = Untracked status ++ [git.resolvePath (strings.sliceFrom 3 line)].
Proof.
  intros Hlen Hx. rewrite statusLine_lists.
  unfold stagedLine, unstagedLine, untrackedLine, parsable, indexState, pathOf.
  rewrite Hx. apply Nat.leb_le in Hlen. rewrite Hlen.
  cbn. rewrite andb_false_r. cbn. rewrite !app_nil_r. auto.
Qed.

Lemma untracked_line_only_untracked_witness :
  Untracked (git.statusLine (mkGitStatus "main" [] [] [] true true) "?? new.txt")
  = ["new.txt"].
Proof.
  apply (untracked_line_only_untracked
           (mkGitStatus "main" [] [] [] true true) "?? new.txt").
  - simpl. lia.
  - reflexivity.
Defined.

(** X3: a rename line ["R  OLD->NEW"], where NEW contains no further arrow,
    is staged under the new path with surrounding white space trimmed and
    the status "Renamed"; it is neither unstaged nor untracked. *)
Theorem rename_line_staged_under_new_path
    (status : GitStatus) (old new : string) :
  strings.Contains new "->" = false ->
  let status' := git.statusLine status ("R  " +:+ old +:+ "->" +:+ new) in
  Staged status'
  = Staged status ++ [mkFileChange (strings.TrimSpace new) "Renamed" 0 0] /\
  Unstaged status' = Unstaged status /\
  Untracked status' = Untracked status.
Proof.
  intros Hnew status'. subst status'. rewrite statusLine_lists.
  change ("R  " +:+ old +:+ "->" +:+ new)
    with (String "R" (String " " (String " " (old +:+ arrow +:+ new)))).
  unfold stagedLine, unstagedLine, untrackedLine, parsable, indexState,
    worktreeState, changeOf.
  cbn [String.length Nat.leb byteAt String.get default strings.sliceFrom
       strings.sliceTo substring].
  rewrite (resolvePath_rename_target old new Hnew).
  cbn. rewrite !app_nil_r. auto.
Qed.

Lemma rename_line_staged_under_new_path_witness :
  Staged (git.statusLine (mkGitStatus "main" [] [] [] true true)
            ("R  " +:+ "old.txt " +:+ "->" +:+ " new.txt"))
  = [mkFileChange "new.txt" "Renamed" 0 0].
Proof.
  apply (rename_line_staged_under_new_path
           (mkGitStatus "main" [] [] [] true true) "old.txt " " new.txt").
  reflexivity.
Defined.

Lemma spaceWidth_hash (s : string) : strings.spaceWidth (String "#" s) = O.
Proof. destruct s; vm_compute; reflexivity. Qed.

Lemma spaceWidth_blank (s : string) : strings.spaceWidth (String " " s) = 1%nat.
Proof. destruct s; vm_compute; reflexivity. Qed.

Lemma Fields_header (rest : string) :
  strings.Fields ("## " +:+ rest) = "##" :: strings.Fields rest.
Proof.
  change ("## " +:+ rest) with (String "#" (String "#" (String " " rest))).
  unfold strings.Fields. cbn [strings.fields_go].
  rewrite !spaceWidth_hash, spaceWidth_blank. reflexivity.
Qed.

(** X4: when [git status -sb] prints its ["## branch..."] header, the
    [Branch] of the returned status is the header's first field, ["##"]:
    the name read from [rev-parse --abbrev-ref HEAD] is overwritten. *)
Theorem GetStatus_branch_is_header_mark
    gitExec (g : git.GitService) (st : GitStatus) (rest : string) :
  git.GetStatus gitExec g = Ok st ->
  fst (git.runGitCommand gitExec g ["status"; "-sb"]) = "## " +:+ rest ->
  Branch st = "##".
Proof.
  unfold git.GetStatus. intros H Hsb.
  destruct (String.eqb (git.currentPath g) EmptyString); [discriminate|].
  destruct (git.runGitCommand gitExec g ["rev-parse"; "--abbrev-ref"; "HEAD"])
    as [branch berr].
  destruct (git.runGitCommand gitExec g ["status"; "-sb"]) as [bs bserr].
  simpl in Hsb. subst bs. rewrite Fields_header in H.
  change (negb (String.eqb ("## " +:+ rest) EmptyString)) with true in H.
  cbv iota in H.
  destruct (git.porcelain gitExec g) as [output [e|]]; [discriminate|].
  destruct (String.eqb output EmptyString); inversion H; subst st.
  - reflexivity.
  - rewrite fold_statusLine_lists. reflexivity.
Qed.

Lemma GetStatus_branch_is_header_mark_witness :
  exists st,
    git.GetStatus (fixtureGit mixedPorcelain) fixtureRepo = Ok st /\
    Branch st = "##".
Proof.
  eexists. split; [vm_compute; reflexivity|].
  apply (GetStatus_branch_is_header_mark (fixtureGit mixedPorcelain) fixtureRepo
           _ ("main...origin/main" +:+ LF +:+ "M  a.go" +:+ LF +:+ " M b.go"
                +:+ LF +:+ "?? c.go" +:+ LF +:+ "x"));
    vm_compute; reflexivity.
Defined.

(** * The read-only queries of package [git] *)

Module models.

Record Remote : Type := mkRemote { Name : string; URL : string }.

Record CommitInfo : Type := mkCommitInfo {
  Hash : string;
  Message : string;
  Author : string;
  Date : string
}.

End models.

Module GitService.

Import models.

(** The body of the loop of [GetRemotes]: [seen] is the
    [map[string]bool] of the names met so far. *)
Definition remoteLine (acc : gmap string bool * list Remote) (line : string)
  : gmap string bool * list Remote :=
  let '(seen, remotes) := acc in
  if String.eqb line EmptyString then acc
  else
    match strings.Fields line with
    | name :: url :: _ =>
        if negb (default false (seen !! name))
        then (<[name := true]> seen, remotes ++ [mkRemote name url])
        else acc
    | _ => acc
    end.

(** The body of the loop of [GetLog]; [parts[0][:7]] panics on a first
    field shorter than seven bytes. *)
Definition logLine (acc : Result (list CommitInfo)) (line : string)
  : Result (list CommitInfo) :=
  match acc with
  | Ok commits =>
      if String.eqb line EmptyString then acc
      else
        match strings.Split line "|" with
        | p0 :: p1 :: p2 :: p3 :: _ =>
            if (7 <=? String.length p0)%nat
            then Ok (commits
                       ++ [mkCommitInfo (strings.sliceTo 7 p0) p1 p2 p3])
            else Panic "slice bounds out of range [:7]"
        | _ => acc
        end
  | _ => acc
  end.

Section WithGit.

Variable gitExec : string -> list string -> string * option string.

(** [GetRemotes] returns all remotes. *)
Definition GetRemotes (g : git.GitService) : Result (list Remote) :=
  if String.eqb (git.currentPath g) EmptyString
  then Err "no repository selected"
  else
    let '(output, err) := git.runGitCommand gitExec g ["remote"; "-v"] in
    match err with
    | Some e => Err e
    | None =>
        let lines := strings.Split output LF in
        Ok (snd (fold_left remoteLine lines (∅, [])))
    end.

(** [GetDiff] returns the diff for the given file. *)
Definition GetDiff (g : git.GitService) (filePath : string) (staged : bool)
  : string * option string :=
  if String.eqb (git.currentPath g) EmptyString
  then (EmptyString, Some "no repository selected")
  else
    let args := if staged then ["diff"; "--staged"; filePath]
                else ["diff"; filePath] in
    git.runGitCommand gitExec g args.

(** The arguments of the [git log] command [GetLog] runs. *)
Definition logArgs (limit : Z) : list string :=
  ["log"; "-" +:+ pretty limit; "--pretty=format:%H|%s|%an|%ad"; "--date=iso"].

(** [GetLog] returns commit history. *)
Definition GetLog (g : git.GitService) (limit : Z)
  : Result (list CommitInfo) :=
  if String.eqb (git.currentPath g) EmptyString
  then Err "no repository selected"
  else
    let '(output, err) := git.runGitCommand gitExec g (logArgs limit) in
    match err with
    | Some e => Err e
    | None =>
        let lines := strings.Split output LF in
        fold_left logLine lines (Ok [])
    end.

End WithGit.

End GitService.


(** ** [GetRemotes] *)

Definition remotesInv (done : list string)
    (acc : gmap string bool * list models.Remote) : Prop :=
  (forall n, default false (fst acc !! n) = true <-> n ∈ map models.Name (snd acc)) /\
  NoDup (map models.Name (snd acc)) /\
  (forall r, r ∈ snd acc ->
     exists line rest,
       line ∈ done /\ strings.Fields line = models.Name r :: models.URL r :: rest) /\
  (forall line n u rest,
     line ∈ done -> strings.Fields line = n :: u :: rest ->
     n ∈ map models.Name (snd acc)).

Lemma remoteLine_inv (done : list string) acc (line : string) :
  remotesInv done acc ->
  remotesInv (done ++ [line]) (GitService.remoteLine acc line).
Proof.
  destruct acc as [seen remotes]. intros (Hseen & Hnd & Hsound & Hcompl).
  simpl in *.
  assert (Hkeep : (forall n u rest, strings.Fields line = n :: u :: rest ->
                     n ∈ map models.Name remotes) ->
                  remotesInv (done ++ [line]) (seen, remotes)).
  { intros Hline. split; [exact Hseen|]. split; [exact Hnd|]. split; simpl.
    - intros r Hr. destruct (Hsound r Hr) as (l & rest & Hl & Hf).
      exists l, rest. split; [apply elem_of_app; by left|assumption].
    - intros l n u rest Hl Hf. apply elem_of_app in Hl as [Hl|Hl].
      + eapply Hcompl; eassumption.
      + apply list_elem_of_singleton in Hl. subst l. eapply Hline; eassumption. }
  unfold GitService.remoteLine.
  destruct (String.eqb_spec line EmptyString) as [->|_].
  { apply Hkeep. intros n u rest Hf. vm_compute in Hf. discriminate. }
  destruct (strings.Fields line) as [|name [|url rest]] eqn:Hf;
    try (apply Hkeep; intros; discriminate).
  destruct (default false (seen !! name)) eqn:Hs; cbn [negb].
  { apply Hkeep. intros n u r' E. inversion E; subst.
    exact (proj1 (Hseen n) Hs). }
  assert (Hfresh : name ∉ map models.Name remotes).
  { intros Hin. pose proof (proj2 (Hseen name) Hin). congruence. }
  repeat split; simpl.
  - intros Hn. rewrite map_app. apply elem_of_app.
    destruct (decide (name = n)) as [->|Hne].
    + right. simpl. by apply list_elem_of_singleton.
    + rewrite lookup_insert_ne in Hn by assumption. left.
      exact (proj1 (Hseen n) Hn).
  - rewrite map_app. intros Hn. apply elem_of_app in Hn as [Hn|Hn].
    + destruct (decide (name = n)) as [->|Hne]; [contradiction|].
      rewrite lookup_insert_ne by assumption. exact (proj2 (Hseen n) Hn).
    + simpl in Hn. apply list_elem_of_singleton in Hn. subst n.
      by rewrite lookup_insert_eq.
  - rewrite map_app. apply NoDup_app. repeat split; try assumption.
    + intros n Hn Hn'. simpl in Hn'. apply list_elem_of_singleton in Hn'.
      subst n. contradiction.
    + simpl. apply NoDup_singleton.
  - intros r Hr. apply elem_of_app in Hr as [Hr|Hr].
    + destruct (Hsound r Hr) as (l & rest' & Hl & Hfl).
      exists l, rest'. split; [apply elem_of_app; by left|assumption].
    + apply list_elem_of_singleton in Hr. subst r.
      exists line, rest.
      split; [apply elem_of_app; right; by apply list_elem_of_singleton|assumption].
  - intros l n u rest' Hl Hfl. rewrite map_app. apply elem_of_app.
    apply elem_of_app in Hl as [Hl|Hl].
    + left. eapply Hcompl; eassumption.
    + apply list_elem_of_singleton in Hl. subst l. rewrite Hf in Hfl.
      inversion Hfl; subst. right. simpl. by apply list_elem_of_singleton.
Qed.

Lemma fold_remoteLine_inv (lines : list string) :
  forall done acc,
    remotesInv done acc ->
    remotesInv (done ++ lines) (fold_left GitService.remoteLine lines acc).
Proof.
  induction lines as [|line lines IH]; intros done acc Hinv.
  - simpl. by rewrite app_nil_r.
  - simpl. replace (done ++ line :: lines) with ((done ++ [line]) ++ lines)
      by (rewrite <- app_assoc; reflexivity).
    apply IH. by apply remoteLine_inv.
Qed.

(** X5: the remotes [GetRemotes] returns have pairwise distinct names; each
    has the first two fields of some line of [git remote -v] as its name
    and models.URL, and every line with at least two fields has its first field
    among the names. *)
Theorem GetRemotes_distinct_names
    gitExec (g : git.GitService) (remotes : list models.Remote) :
  GitService.GetRemotes gitExec g = Ok remotes ->
  let lines :=
    strings.Split (fst (git.runGitCommand gitExec g ["remote"; "-v"])) LF in
  NoDup (map models.Name remotes) /\
  (forall r, r ∈ remotes ->
     exists line rest,
       line ∈ lines /\ strings.Fields line = models.Name r :: models.URL r :: rest) /\
  (forall line n u rest,
     line ∈ lines -> strings.Fields line = n :: u :: rest ->
     n ∈ map models.Name remotes).
Proof.
  unfold GitService.GetRemotes. intros H.
  destruct (String.eqb (git.currentPath g) EmptyString); [discriminate|].
  destruct (git.runGitCommand gitExec g ["remote"; "-v"]) as [output [e|]];
    [discriminate|].
  inversion H; subst remotes. simpl fst.
  assert (Hinv : remotesInv [] (∅, [])).
  { split; [|split; [apply NoDup_nil_2|split]]; simpl.
    - intros n. rewrite lookup_empty. simpl. split; [discriminate|].
      intros Hn. by apply elem_of_nil in Hn.
    - intros r Hr. by apply elem_of_nil in Hr.
    - intros line n u rest Hl. by apply elem_of_nil in Hl. }
  apply (fold_remoteLine_inv (strings.Split output LF)) in Hinv.
  destruct Hinv as (_ & Hnd & Hsound & Hcompl). auto.
Qed.

(** A [git] that prints [out] whatever it is asked. *)
Definition answerGit (out : string) (dir : string) (args : list string)
  : string * option string := (out, None).

Definition TAB : string := strings.bytes [9%nat].

Definition remoteListing : string :=
  "origin" +:+ TAB +:+ "https://example.org/a.git (fetch)" +:+ LF +:+
  "origin" +:+ TAB +:+ "https://example.org/a.git (push)" +:+ LF +:+
  "fork" +:+ TAB +:+ "https://example.org/b.git (fetch)" +:+ LF.

Lemma GetRemotes_distinct_names_witness :
  exists remotes,
    GitService.GetRemotes (answerGit remoteListing) fixtureRepo = Ok remotes /\
    map models.Name remotes = ["origin"; "fork"] /\
    NoDup (map models.Name remotes).
Proof.
  eexists. split; [vm_compute; reflexivity|]. split; [reflexivity|].
  apply (GetRemotes_distinct_names (answerGit remoteListing) fixtureRepo).
  vm_compute. reflexivity.
Defined.

(** ** [GetLog] *)

Definition lf : ascii := ascii_of_nat 10.

(** A line of [git log --pretty=format:%H|%s|%an|%ad]. *)
Definition formatCommit (c : models.CommitInfo) : string :=
  strings.Join [models.Hash c; models.Message c; models.Author c; models.Date c] "|".

(** The commit as [GetLog] shows it: the hash cut to seven bytes. *)
Definition abbreviate (c : models.CommitInfo) : models.CommitInfo :=
  models.mkCommitInfo (strings.sliceTo 7 (models.Hash c)) (models.Message c) (models.Author c) (models.Date c).

Definition plainField (s : string) : Prop :=
  hasByte "|" s = false /\ hasByte lf s = false.

Definition plainCommit (c : models.CommitInfo) : Prop :=
  (7 <= String.length (models.Hash c))%nat /\
  plainField (models.Hash c) /\ plainField (models.Message c) /\
  plainField (models.Author c) /\ plainField (models.Date c).

Lemma logLine_formatCommit (commits : list models.CommitInfo) (c : models.CommitInfo) :
  plainCommit c ->
  GitService.logLine (Ok commits) (formatCommit c)
  = Ok (commits ++ [abbreviate c]).
Proof.
  intros (Hlen & [Hh _] & [Hm _] & [Ha _] & [Hd _]).
  unfold GitService.logLine.
  assert (Hne : String.eqb (formatCommit c) EmptyString = false).
  { apply String.eqb_neq. intros E.
    assert (L : String.length (formatCommit c) = O) by (rewrite E; reflexivity).
    unfold formatCommit in L. cbn [strings.Join] in L.
    rewrite length_append in L. lia. }
  rewrite Hne. unfold formatCommit.
  rewrite (Split_Join "|" [models.Hash c; models.Message c; models.Author c; models.Date c])
    by first [discriminate | repeat constructor; assumption].
  apply Nat.leb_le in Hlen. rewrite Hlen. reflexivity.
Qed.

Lemma fold_logLine_formatCommit (cs : list models.CommitInfo) :
  Forall plainCommit cs ->
  forall commits,
    fold_left GitService.logLine (map formatCommit cs) (Ok commits)
    = Ok (commits ++ map abbreviate cs).
Proof.
  induction 1 as [|c cs Hc _ IH]; intros commits; cbn [fold_left map].
  - by rewrite app_nil_r.
  - rewrite (logLine_formatCommit commits c Hc), IH, <- app_assoc.
    reflexivity.
Qed.

Lemma formatCommit_one_line (c : models.CommitInfo) :
  plainCommit c -> hasByte lf (formatCommit c) = false.
Proof.
  intros (_ & [_ Hh] & [_ Hm] & [_ Ha] & [_ Hd]).
  unfold formatCommit. cbn [strings.Join].
  rewrite !hasByte_append, Hh, Hm, Ha, Hd. reflexivity.
Qed.

(** X6: [GetLog] reads back what [git log] printed in the format it asks
    for: when no field contains ['|'] or a line feed and every hash has at
    least seven bytes, the result is the printed commits, in order, each
    with its hash cut to its first seven bytes. *)
Theorem GetLog_reads_formatted_commits
    gitExec (g : git.GitService) (limit : Z) (cs : list models.CommitInfo) :
  git.currentPath g <> EmptyString ->
  git.runGitCommand gitExec g (GitService.logArgs limit)
  = (strings.Join (map formatCommit cs) LF, None) ->
  Forall plainCommit cs ->
  GitService.GetLog gitExec g limit = Ok (map abbreviate cs).
Proof.
  intros Hpath Hrun Hcs. unfold GitService.GetLog.
  destruct (String.eqb_spec (git.currentPath g) EmptyString); [contradiction|].
  rewrite Hrun. destruct cs as [|c cs].
  - reflexivity.
  - change LF with (String lf EmptyString). rewrite Split_Join.
    + by apply (fold_logLine_formatCommit (c :: cs) Hcs []).
    + discriminate.
    + apply Forall_map. eapply Forall_impl; [exact Hcs|].
      intros c' Hc'. by apply formatCommit_one_line.
Qed.

Definition sampleCommits : list models.CommitInfo :=
  [ models.mkCommitInfo "9fceb02d0ae598e95dc970b74767f19372d61af8" "feat: add parser"
      "Ada" "2024-05-01 10:00:00 +0200";
    models.mkCommitInfo "1b6d7c2a59f4e0c8d3a4b5c6d7e8f9a0b1c2d3e4" "fix: trim path"
      "Lin" "2024-04-30 09:30:00 +0200" ].

Lemma GetLog_reads_formatted_commits_witness :
  GitService.GetLog
    (answerGit (strings.Join (map formatCommit sampleCommits) LF))
    fixtureRepo 20
  = Ok [ models.mkCommitInfo "9fceb02" "feat: add parser" "Ada"
           "2024-05-01 10:00:00 +0200";
         models.mkCommitInfo "1b6d7c2" "fix: trim path" "Lin"
           "2024-04-30 09:30:00 +0200" ].
Proof.
  apply (GetLog_reads_formatted_commits
           (answerGit (strings.Join (map formatCommit sampleCommits) LF))
           fixtureRepo 20 sampleCommits).
  - discriminate.
  - vm_compute. reflexivity.
  - repeat constructor; simpl; lia.
Defined.

(** X7: a ['|'] in the subject of a commit shifts the fields: for the log
    line [H|S1|S2|AUTHOR|DATE] of a commit whose subject is [S1|S2],
    [GetLog] reports the message [S1], the author [S2] and the date
    [AUTHOR]. *)
Theorem GetLog_subject_with_bar
    gitExec (g : git.GitService) (limit : Z) (h s1 s2 author date : string) :
  git.currentPath g <> EmptyString ->
  (7 <= String.length h)%nat ->
  Forall plainField [h; s1; s2; author; date] ->
  git.runGitCommand gitExec g (GitService.logArgs limit)
  = (formatCommit (models.mkCommitInfo h (s1 +:+ "|" +:+ s2) author date), None) ->
  GitService.GetLog gitExec g limit
  = Ok [models.mkCommitInfo (strings.sliceTo 7 h) s1 s2 author].
Proof.
  intros Hpath Hlen Hplain Hrun. unfold GitService.GetLog.
  destruct (String.eqb_spec (git.currentPath g) EmptyString); [contradiction|].
  rewrite Hrun.
  inversion Hplain as [|? ? [Hh Hh'] H1]; subst.
  inversion H1 as [|? ? [Hs1 Hs1'] H2]; subst.
  inversion H2 as [|? ? [Hs2 Hs2'] H3]; subst.
  inversion H3 as [|? ? [Ha Ha'] H4]; subst.
  inversion H4 as [|? ? [Hd Hd'] _]; subst.
  set (line := formatCommit _).
  assert (Hline : line = strings.Join [h; s1; s2; author; date] "|").
  { subst line. unfold formatCommit. cbn [strings.Join models.Hash models.Message models.Author models.Date].
    rewrite !append_assoc. reflexivity. }
  assert (Hone : hasByte lf line = false).
  { rewrite Hline. cbn [strings.Join].
    rewrite !hasByte_append, Hh', Hs1', Hs2', Ha', Hd'. reflexivity. }
  change LF with (String lf EmptyString).
  rewrite (split_go_free lf line Hone EmptyString
           : strings.Split line (String lf EmptyString) = _).
  change (String.rev EmptyString +:+ line) with line.
  cbn [fold_left GitService.logLine].
  assert (Hne : String.eqb line EmptyString = false).
  { apply String.eqb_neq. intros E.
    assert (L : String.length line = O) by (rewrite E; reflexivity).
    rewrite Hline in L. cbn [strings.Join] in L.
    rewrite length_append in L. lia. }
  rewrite Hne, Hline.
  rewrite (Split_Join "|" [h; s1; s2; author; date])
    by first [discriminate | repeat constructor; assumption].
  apply Nat.leb_le in Hlen. rewrite Hlen. reflexivity.
Qed.

Lemma GetLog_subject_with_bar_witness :
  GitService.GetLog
    (answerGit
       ("9fceb02d0ae598e95dc970b74767f19372d61af8|fix a|b|Ada|2024-05-01"))
    fixtureRepo 1
  = Ok [models.mkCommitInfo "9fceb02" "fix a" "b" "Ada"].
Proof.
  apply (GetLog_subject_with_bar
           (answerGit
              ("9fceb02d0ae598e95dc970b74767f19372d61af8|fix a|b|Ada|2024-05-01"))
           fixtureRepo 1 "9fceb02d0ae598e95dc970b74767f19372d61af8"
           "fix a" "b" "Ada" "2024-05-01").
  - discriminate.
  - simpl. lia.
  - repeat constructor.
  - vm_compute. reflexivity.
Defined.

(** * More about the AI gateway *)

Definition knownProvider (p : AIProvider) : Prop :=
  p = ProviderOpenAI \/ p = ProviderClaude \/ p = ProviderOllama.

(** The URL a request goes to: the configured base URL, or the provider's
    default when it is empty, followed by the provider's path. *)
Definition endpoint (cfg : AIConfig) : string :=
  let base default :=
    if String.eqb (BaseURL cfg) EmptyString then default else BaseURL cfg in
  if decide (Provider cfg = ProviderOpenAI)
  then base "https://api.openai.com/v1" +:+ "/chat/completions"
  else if decide (Provider cfg = ProviderClaude)
  then base "https://api.anthropic.com/v1" +:+ "/messages"
  else base "http://localhost:11434" +:+ "/api/generate".

Lemma openAIText_extracted (response : gmap string Value) (text : string) :
  extractedText ProviderOpenAI response = Some text ->
  ai.openAIText response = Ok (strings.TrimSpace text).
Proof.
  unfold ai.openAIText, extractedText, field, item.
  rewrite decide_True by reflexivity.
  destruct (response !! "choices") as [[| | | |[|c0 cs]|]|]; simpl;
    try discriminate.
  destruct c0 as [| | | | |choice]; simpl; try discriminate.
  destruct (choice !! "message") as [[| | | | |msg]|]; simpl; try discriminate.
  intros ->. reflexivity.
Qed.

Lemma claudeText_extracted (response : gmap string Value) (text : string) :
  extractedText ProviderClaude response = Some text ->
  ai.claudeText response = Ok (strings.TrimSpace text).
Proof.
  unfold ai.claudeText, extractedText, field, item.
  rewrite decide_False by discriminate. rewrite decide_True by reflexivity.
  destruct (response !! "content") as [[| | | |[|c0 cs]|]|]; simpl;
    try discriminate.
  destruct c0 as [| | | | |block]; simpl; try discriminate.
  intros ->. reflexivity.
Qed.

Lemma ollamaText_extracted (response : gmap string Value) (text : string) :
  extractedText ProviderOllama response = Some text ->
  ai.ollamaText response = Ok (strings.TrimSpace text).
Proof.
  unfold ai.ollamaText, extractedText.
  do 2 rewrite decide_False by discriminate. rewrite decide_True by reflexivity.
  intros ->. reflexivity.
Qed.

(** X8: [getModel] never returns the empty string, so the fallback to
    "llama2" in [generateWithOllama] never fires. *)
Theorem getModel_not_empty (w : ai.World) :
  exists m, ai.getModel w = (Ok m, w) /\ String.eqb m EmptyString = false.
Proof.
  unfold ai.getModel, ai.bind, ai.self, ai.ret.
  destruct (String.eqb (Model (ai.config (ai.service w))) EmptyString) eqn:E;
    simpl; [|eauto].
  repeat case_match; eauto.
Qed.

(** X9: validating the held configuration right after [SetConfig] gives
    the verdict [ValidateConfigParam] gives on the same configuration. *)
Theorem ValidateConfig_after_SetConfig (cfg : AIConfig) (w : ai.World) :
  fst (ai.bind (ai.SetConfig cfg) (fun _ => ai.ValidateConfig) w)
  = fst (ai.ValidateConfigParam cfg w).
Proof.
  unfold ai.ValidateConfigParam, ai.ValidateConfig, ai.SetConfig, ai.bind,
    ai.self, ai.fail, ai.ret, ai.lift. simpl.
  repeat case_match; simplify_eq; reflexivity.
Qed.

Section GatewayRequests.

Variable json_Marshal : Value -> Result string.
Variable json_Unmarshal : string -> Result (gmap string Value).
Variable http_NewRequest : string -> string -> string -> Result Request.

Abbreviation exchange :=
  (ai.exchange json_Marshal json_Unmarshal http_NewRequest).
Abbreviation GenerateCommitMessage :=
  (ai.GenerateCommitMessage json_Marshal json_Unmarshal http_NewRequest).

(** What one call may have done to the world: nothing, or one request
    built by [http_NewRequest] for [url] and then given [headers]. *)
Definition sentAtMost (url : string) (headers : Request -> Request)
    (w w' : ai.World) : Prop :=
  ai.service w' = ai.service w /\
  (ai.sent w' = ai.sent w \/
   exists body jsonData req0,
     json_Marshal body = Ok jsonData /\
     http_NewRequest "POST" url jsonData = Ok req0 /\
     ai.sent w' = ai.sent w ++ [headers req0]).

Lemma exchange_sentAtMost url requestBody headers w :
  sentAtMost url headers w (snd (exchange url requestBody headers w)).
Proof.
  unfold ai.exchange, ai.bind, ai.lift, ai.fail, ai.client_Do, sentAtMost.
  destruct (json_Marshal requestBody) as [j| |] eqn:Hj; simpl; auto.
  destruct (http_NewRequest "POST" url j) as [req0| |] eqn:Hr; simpl; auto.
  assert (Hsent : exists body jsonData r0,
             json_Marshal body = Ok jsonData /\
             http_NewRequest "POST" url jsonData = Ok r0 /\
             ai.sent w ++ [headers req0] = ai.sent w ++ [headers r0])
    by eauto 8.
  destruct (ai.client (ai.service w) (headers req0)) as [resp| |]; simpl; auto.
  destruct (ReadAll resp) as [b| |]; simpl; auto.
  destruct (negb (StatusCode resp =? StatusOK)); simpl; auto.
Qed.

(** Running the exchange when the libraries and the client answer. *)
Lemma exchange_run url requestBody headers w jsonData req0 resp body :
  json_Marshal requestBody = Ok jsonData ->
  http_NewRequest "POST" url jsonData = Ok req0 ->
  ai.client (ai.service w) (headers req0) = Ok resp ->
  ReadAll resp = Ok body ->
  exchange url requestBody headers w
  = (if StatusCode resp =? StatusOK
     then wrapErr "failed to parse response: " (json_Unmarshal body)
     else Err ("API error (status " +:+ pretty (StatusCode resp) +:+ "): "
                 +:+ body),
     ai.mkWorld (ai.service w) (ai.sent w ++ [headers req0])).
Proof.
  intros Hj Hr Hc Hb.
  unfold ai.exchange, ai.bind, ai.lift, ai.fail, ai.client_Do.
  rewrite Hj. simpl. rewrite Hr. simpl. rewrite Hc. simpl. rewrite Hb. simpl.
  destruct (StatusCode resp =? StatusOK); reflexivity.
Qed.

End GatewayRequests.

Lemma bind_run {A B} (c : ai.M A) (k : A -> ai.M B) w a w1 :
  c w = (Ok a, w1) -> ai.bind c k w = k a w1.
Proof. intros H. unfold ai.bind. rewrite H. reflexivity. Qed.

Lemma bind_world {A B} (c : ai.M A) (k : A -> ai.M B) w :
  (forall a, snd (k a (snd (c w))) = snd (c w)) ->
  snd (ai.bind c k w) = snd (c w).
Proof.
  intros H. unfold ai.bind. destruct (c w) as [[a| |] w1] eqn:E; simpl; auto.
Qed.

Lemma not_own_extension {A} (l : list A) (x : A) : l <> l ++ [x].
Proof.
  intros E. apply (f_equal length) in E. rewrite length_app in E.
  simpl in E. lia.
Qed.

(** What the three back ends do to a request [http_NewRequest] returned. *)
Definition openAIHeaders (cfg : AIConfig) (req : Request) : Request :=
  Header_Set "Authorization" ("Bearer " +:+ APIKey cfg)
    (Header_Set "Content-Type" "application/json" req).

Definition claudeHeaders (cfg : AIConfig) (req : Request) : Request :=
  Header_Set "anthropic-version" "2023-06-01"
    (Header_Set "x-api-key" (APIKey cfg)
       (Header_Set "Content-Type" "application/json" req)).

Definition ollamaHeaders (req : Request) : Request :=
  Header_Set "Content-Type" "application/json" req.

Definition headersOf (cfg : AIConfig) : Request -> Request :=
  if decide (Provider cfg = ProviderOpenAI) then openAIHeaders cfg
  else if decide (Provider cfg = ProviderClaude) then claudeHeaders cfg
  else ollamaHeaders.

(** The text a back end returns for a decoded response. *)
Definition textOf (p : AIProvider) (response : gmap string Value)
  : Result string :=
  if decide (p = ProviderOpenAI) then ai.openAIText response
  else if decide (p = ProviderClaude) then ai.claudeText response
  else ai.ollamaText response.

Section GatewayRuns.

Variable json_Marshal : Value -> Result string.
Variable json_Unmarshal : string -> Result (gmap string Value).
Variable http_NewRequest : string -> string -> string -> Result Request.

Abbreviation exchange :=
  (ai.exchange json_Marshal json_Unmarshal http_NewRequest).
Abbreviation GenerateCommitMessage :=
  (ai.GenerateCommitMessage json_Marshal json_Unmarshal http_NewRequest).
Abbreviation sentAtMost := (sentAtMost json_Marshal http_NewRequest).

(** Each back end is one exchange with the provider's endpoint, followed
    by reading the text off the decoded response. *)
Lemma generateWithOpenAI_exchange diff w :
  Provider (ai.config (ai.service w)) = ProviderOpenAI ->
  exists body,
    ai.generateWithOpenAI json_Marshal json_Unmarshal http_NewRequest diff w
    = ai.bind (exchange (endpoint (ai.config (ai.service w))) body
                 (headersOf (ai.config (ai.service w))))
        (fun response => ai.lift (ai.openAIText response)) w.
Proof.
  intros Hp. unfold ai.generateWithOpenAI.
  rewrite (bind_run ai.self _ w (ai.service w) w) by reflexivity.
  destruct (getModel_pure w) as (m & Hm).
  rewrite (bind_run ai.getModel _ w m w Hm).
  unfold endpoint, headersOf. rewrite !decide_True by assumption.
  eexists. reflexivity.
Qed.

Lemma generateWithClaude_exchange diff w :
  Provider (ai.config (ai.service w)) = ProviderClaude ->
  exists body,
    ai.generateWithClaude json_Marshal json_Unmarshal http_NewRequest diff w
    = ai.bind (exchange (endpoint (ai.config (ai.service w))) body
                 (headersOf (ai.config (ai.service w))))
        (fun response => ai.lift (ai.claudeText response)) w.
Proof.
  intros Hp. unfold ai.generateWithClaude.
  rewrite (bind_run ai.self _ w (ai.service w) w) by reflexivity.
  destruct (getModel_pure w) as (m & Hm).
  rewrite (bind_run ai.getModel _ w m w Hm).
  unfold endpoint, headersOf. rewrite Hp.
  rewrite !(decide_False (P := ProviderClaude = ProviderOpenAI)) by discriminate.
  rewrite !decide_True by reflexivity.
  eexists. reflexivity.
Qed.

Lemma generateWithOllama_exchange diff w :
  Provider (ai.config (ai.service w)) = ProviderOllama ->
  exists body,
    ai.generateWithOllama json_Marshal json_Unmarshal http_NewRequest diff w
    = ai.bind (exchange (endpoint (ai.config (ai.service w))) body
                 (headersOf (ai.config (ai.service w))))
        (fun response => ai.lift (ai.ollamaText response)) w.
Proof.
  intros Hp. unfold ai.generateWithOllama.
  rewrite (bind_run ai.self _ w (ai.service w) w) by reflexivity.
  destruct (getModel_pure w) as (m & Hm).
  rewrite (bind_run ai.getModel _ w m w Hm).
  unfold endpoint, headersOf. rewrite Hp.
  rewrite !(decide_False (P := ProviderOllama = ProviderOpenAI)) by discriminate.
  rewrite !(decide_False (P := ProviderOllama = ProviderClaude)) by discriminate.
  eexists. reflexivity.
Qed.

(** The gateway either stops before any back end runs, leaving the world
    as it was, or is one exchange followed by reading the text. *)
Lemma GenerateCommitMessage_cases diff w :
  let cfg := ai.config (ai.service w) in
  (exists e, GenerateCommitMessage diff w = (Err e, w)) \/
  (knownProvider (Provider cfg) /\
   exists body,
     GenerateCommitMessage diff w
     = ai.bind (exchange (endpoint cfg) body (headersOf cfg))
         (fun response => ai.lift (textOf (Provider cfg) response)) w).
Proof.
  intros cfg. unfold ai.GenerateCommitMessage.
  rewrite (bind_run ai.self _ w (ai.service w) w) by reflexivity.
  destruct (String.eqb (strings.TrimSpace diff) EmptyString);
    [left; eexists; reflexivity|].
  destruct (_ && _); [left; eexists; reflexivity|].
  fold cfg.
  destruct (String.eqb_spec (Provider cfg) ProviderOpenAI) as [Ho|Ho].
  { right. split; [by left|].
    destruct (generateWithOpenAI_exchange diff w Ho) as (body & ->).
    exists body. fold cfg. unfold textOf.
    repeat case_decide; try contradiction; reflexivity. }
  destruct (String.eqb_spec (Provider cfg) ProviderClaude) as [Hc|Hc].
  { right. split; [right; by left|].
    destruct (generateWithClaude_exchange diff w Hc) as (body & ->).
    exists body. fold cfg. unfold textOf.
    repeat case_decide; try contradiction; reflexivity. }
  destruct (String.eqb_spec (Provider cfg) ProviderOllama) as [Hl|Hl].
  { right. split; [right; by right|].
    destruct (generateWithOllama_exchange diff w Hl) as (body & ->).
    exists body. fold cfg. unfold textOf.
    repeat case_decide; try contradiction; reflexivity. }
  left. eexists. reflexivity.
Qed.


Lemma GenerateCommitMessage_sent (diff : string) (w : ai.World) (req : Request) :
  ai.sent (snd (GenerateCommitMessage diff w)) = ai.sent w ++ [req] ->
  let cfg := ai.config (ai.service w) in
  knownProvider (Provider cfg) /\
  exists body jsonData req0,
    json_Marshal body = Ok jsonData /\
    http_NewRequest "POST" (endpoint cfg) jsonData = Ok req0 /\
    req = headersOf cfg req0.
Proof.
  intros Hsent cfg.
  destruct (GenerateCommitMessage_cases diff w) as [[e He]|[Hk [body Hb]]].
  - rewrite He in Hsent. simpl in Hsent.
    by apply not_own_extension in Hsent.
  - split; [exact Hk|].
    rewrite Hb, bind_world in Hsent by reflexivity.
    destruct (exchange_sentAtMost json_Marshal json_Unmarshal http_NewRequest
                (endpoint cfg) body (headersOf cfg) w)
      as [_ [Hn|(b & j & r0 & Hj & Hr & Hs)]].
    + fold cfg in Hsent. rewrite Hn in Hsent.
      by apply not_own_extension in Hsent.
    + fold cfg in Hsent. rewrite Hs in Hsent.
      apply app_inj_tail in Hsent as [_ <-]. eauto 8.
Qed.



(** The conditions under which the gateway reaches a back end. *)
Definition ready (diff : string) (w : ai.World) : Prop :=
  let cfg := ai.config (ai.service w) in
  strings.TrimSpace diff <> EmptyString /\
  knownProvider (Provider cfg) /\
  (APIKey cfg <> EmptyString \/ Provider cfg = ProviderOllama).

(** The libraries do their job: marshalling and request creation succeed. *)
Definition librariesAnswer : Prop :=
  (forall v, exists j, json_Marshal v = Ok j) /\
  (forall m u b, exists r, http_NewRequest m u b = Ok r).

Lemma GenerateCommitMessage_ready diff w :
  ready diff w ->
  exists body,
    GenerateCommitMessage diff w
    = ai.bind (exchange (endpoint (ai.config (ai.service w))) body
                 (headersOf (ai.config (ai.service w))))
        (fun response =>
           ai.lift (textOf (Provider (ai.config (ai.service w))) response)) w.
Proof.
  intros (Hd & Hk & Hkey). unfold ai.GenerateCommitMessage.
  rewrite (bind_run ai.self _ w (ai.service w) w) by reflexivity.
  destruct (String.eqb_spec (strings.TrimSpace diff) EmptyString);
    [contradiction|].
  assert (Hcred : String.eqb (APIKey (ai.config (ai.service w))) EmptyString
                  && negb (String.eqb (Provider (ai.config (ai.service w)))
                             ProviderOllama) = false).
  { destruct Hkey as [Hkey|Hkey].
    - apply String.eqb_neq in Hkey. rewrite Hkey. reflexivity.
    - rewrite Hkey. apply andb_false_r. }
  rewrite Hcred.
  set (cfg := ai.config (ai.service w)) in *.
  destruct (String.eqb_spec (Provider cfg) ProviderOpenAI) as [Ho|Ho].
  { destruct (generateWithOpenAI_exchange diff w Ho) as (body & ->).
    exists body. fold cfg. unfold textOf.
    repeat case_decide; try contradiction; reflexivity. }
  destruct (String.eqb_spec (Provider cfg) ProviderClaude) as [Hc|Hc].
  { destruct (generateWithClaude_exchange diff w Hc) as (body & ->).
    exists body. fold cfg. unfold textOf.
    repeat case_decide; try contradiction; reflexivity. }
  destruct (String.eqb_spec (Provider cfg) ProviderOllama) as [Hl|Hl].
  { destruct (generateWithOllama_exchange diff w Hl) as (body & ->).
    exists body. fold cfg. unfold textOf.
    repeat case_decide; try contradiction; reflexivity. }
  destruct Hk as [?|[?|?]]; contradiction.
Qed.

Lemma GenerateCommitMessage_run diff w resp body :
  ready diff w ->
  librariesAnswer ->
  (forall req, ai.client (ai.service w) req = Ok resp) ->
  ReadAll resp = Ok body ->
  exists req,
    GenerateCommitMessage diff w
    = (if StatusCode resp =? StatusOK
       then match json_Unmarshal body with
            | Ok response =>
                textOf (Provider (ai.config (ai.service w))) response
            | Err e => Err ("failed to parse response: " +:+ e)
            | Panic e => Panic e
            end
       else Err ("API error (status " +:+ pretty (StatusCode resp) +:+ "): "
                   +:+ body),
       ai.mkWorld (ai.service w) (ai.sent w ++ [req])).
Proof.
  intros Hready [Hm Hn] Hc Hb.
  destruct (GenerateCommitMessage_ready diff w Hready) as (rb & ->).
  destruct (Hm rb) as [j Hj].
  destruct (Hn "POST" (endpoint (ai.config (ai.service w))) j) as [r0 Hr].
  exists (headersOf (ai.config (ai.service w)) r0). unfold ai.bind.
  rewrite (exchange_run json_Marshal json_Unmarshal http_NewRequest _ _ _ w
             j r0 resp body Hj Hr (Hc _) Hb).
  destruct (StatusCode resp =? StatusOK); [|reflexivity].
  destruct (json_Unmarshal body); reflexivity.
Qed.



(** X15: a configuration [ValidateConfig] rejects although it names a
    provider is rejected by the gateway with the same error, before
    anything is sent. *)
Theorem ValidateConfig_error_is_gateway_error diff w e :
  strings.TrimSpace diff <> EmptyString ->
  Provider (ai.config (ai.service w)) <> EmptyString ->
  ai.ValidateConfig w = (Err e, w) ->
  GenerateCommitMessage diff w = (Err e, w).
Proof.
  intros Hd Hp. unfold ai.ValidateConfig, ai.GenerateCommitMessage.
  rewrite !(bind_run ai.self _ w (ai.service w) w) by reflexivity.
  destruct (String.eqb_spec (strings.TrimSpace diff) EmptyString);
    [contradiction|].
  set (cfg := ai.config (ai.service w)) in *.
  unfold ai.bind, ai.fail, ai.ret, ai.lift.
  destruct (String.eqb_spec (Provider cfg) EmptyString); [contradiction|].
  destruct (String.eqb_spec (Provider cfg) ProviderOpenAI) as [Ho|Ho];
    destruct (String.eqb_spec (Provider cfg) ProviderClaude) as [Hc|Hc];
    destruct (String.eqb_spec (APIKey cfg) EmptyString) as [Hk|Hk];
    cbn [orb andb]; try discriminate.
  - rewrite Ho. cbn. intros H. inversion H. reflexivity.
  - rewrite Ho. cbn. intros H. inversion H. reflexivity.
  - rewrite Hc. cbn. intros H. inversion H. reflexivity.
Qed.

(** X16: with an API key and a provider other than the three known ones,
    [GenerateCommitMessage] fails with "unsupported AI provider: NAME"
    and sends nothing. *)
Theorem GenerateCommitMessage_unsupported_provider diff w :
  strings.TrimSpace diff <> EmptyString ->
  APIKey (ai.config (ai.service w)) <> EmptyString ->
  Provider (ai.config (ai.service w)) <> ProviderOpenAI ->
  Provider (ai.config (ai.service w)) <> ProviderClaude ->
  Provider (ai.config (ai.service w)) <> ProviderOllama ->
  GenerateCommitMessage diff w
  = (Err ("unsupported AI provider: " +:+ Provider (ai.config (ai.service w))),
     w).
Proof.
  intros Hd Hk Ho Hc Hl. unfold ai.GenerateCommitMessage.
  rewrite (bind_run ai.self _ w (ai.service w) w) by reflexivity.
  destruct (String.eqb_spec (strings.TrimSpace diff) EmptyString);
    [contradiction|].
  destruct (String.eqb_spec (APIKey (ai.config (ai.service w))) EmptyString);
    [contradiction|].
  cbn [andb].
  destruct (String.eqb_spec (Provider (ai.config (ai.service w)))
              ProviderOpenAI); [contradiction|].
  destruct (String.eqb_spec (Provider (ai.config (ai.service w)))
              ProviderClaude); [contradiction|].
  destruct (String.eqb_spec (Provider (ai.config (ai.service w)))
              ProviderOllama); [contradiction|].
  reflexivity.
Qed.

End GatewayRuns.

Lemma Mock_librariesAnswer :
  librariesAnswer Mock.json_Marshal Mock.http_NewRequest.
Proof. split; intros; eexists; reflexivity. Qed.

Definition keylessOpenAI : AIConfig := mkAIConfig ProviderOpenAI "" "" "".



Lemma ready_with_key (cfg : AIConfig) (c : ai.Client) :
  knownProvider (Provider cfg) ->
  APIKey cfg <> EmptyString ->
  ready sampleDiff (Mock.world cfg c).
Proof.
  intros Hk Hkey. split; [|split; [exact Hk|by left]].
  vm_compute. discriminate.
Qed.



Lemma ValidateConfig_error_is_gateway_error_witness :
  Mock.GenerateCommitMessage sampleDiff
    (Mock.world keylessOpenAI (Mock.answering 200 Mock.feat))
  = (Err "API key is required for openai",
     Mock.world keylessOpenAI (Mock.answering 200 Mock.feat)).
Proof.
  apply (ValidateConfig_error_is_gateway_error
           Mock.json_Marshal Mock.json_Unmarshal Mock.http_NewRequest).
  - vm_compute. discriminate.
  - discriminate.
  - reflexivity.
Defined.

Lemma GenerateCommitMessage_unsupported_provider_witness :
  Mock.GenerateCommitMessage sampleDiff
    (Mock.world geminiConfig (Mock.answering 200 Mock.feat))
  = (Err "unsupported AI provider: gemini",
     Mock.world geminiConfig (Mock.answering 200 Mock.feat)).
Proof.
  apply (GenerateCommitMessage_unsupported_provider
           Mock.json_Marshal Mock.json_Unmarshal Mock.http_NewRequest
           sampleDiff (Mock.world geminiConfig (Mock.answering 200 Mock.feat)));
    first [ vm_compute; discriminate | discriminate ].
Defined.

Lemma GenerateCommitMessage_missing_credential_witness :
  Mock.GenerateCommitMessage sampleDiff
    (Mock.world keylessOpenAI (Mock.answering 200 Mock.feat))
  = (Err "API key is required for openai",
     Mock.world keylessOpenAI (Mock.answering 200 Mock.feat)).
Proof.
  apply (GenerateCommitMessage_missing_credential
           Mock.json_Marshal Mock.json_Unmarshal Mock.http_NewRequest
           sampleDiff (Mock.world keylessOpenAI (Mock.answering 200 Mock.feat))).
  - vm_compute. discriminate.
  - reflexivity.
  - discriminate.
Defined.

(** * Package [config]: the file-backed configuration service *)

Module config.

Record WindowConfig : Type := mkWindowConfig {
  Width : Z;
  Height : Z;
  X : Z;
  Y : Z
}.

Record AppConfig : Type := mkAppConfig {
  AI : AIConfig;
  RecentRepos : list string;
  Window : WindowConfig
}.

Record Repository : Type := mkRepository {
  ID : string;
  Path : string;
  Alias : string;
  Description : string;
  CreatedAt : string;
  UpdatedAt : string
}.

(** [ConfigService] manages application configuration: the configuration
    and the repositories it holds in memory ([repositories] is the
    [Repositories] field of the [RepositoriesConfig] it points to). *)
Record ConfigService : Type := mkConfigService {
  configPath : string;
  reposPath : string;
  config : AppConfig;
  repositories : list Repository
}.

Definition setRecentRepos (repos : list string) (c : ConfigService)
  : ConfigService :=
  mkConfigService (configPath c) (reposPath c)
    (mkAppConfig (AI (config c)) repos (Window (config c)))
    (repositories c).

Definition setAI (ai : AIConfig) (c : ConfigService) : ConfigService :=
  mkConfigService (configPath c) (reposPath c)
    (mkAppConfig ai (RecentRepos (config c)) (Window (config c)))
    (repositories c).

Definition setRepositories (repos : list Repository) (c : ConfigService)
  : ConfigService :=
  mkConfigService (configPath c) (reposPath c) (config c) repos.

(** [append(s[:i], s[i+1:]...)] at the first [i] with [s[i] == x]: the
    loops of [AddRecentRepo] and [RemoveRecentRepo] stop there. *)
Fixpoint removeFirst (x : string) (s : list string) : list string :=
  match s with
  | [] => []
  | y :: s' => if String.eqb y x then s' else y :: removeFirst x s'
  end.

(** The byte [equalFold] compares: an ASCII capital is moved to its small
    letter, [c - 'A' + 'a']; every other byte is left alone. *)
Definition lowerByte (c : ascii) : ascii :=
  let n := nat_of_ascii c in
  if (65 <=? n)%nat && (n <=? 90)%nat
  then ascii_of_nat (n - 65 + 97)
  else c.

Fixpoint equalBytes (a b : string) : bool :=
  match a, b with
  | String x a', String y b' =>
      if Ascii.eqb (lowerByte x) (lowerByte y) then equalBytes a' b' else false
  | _, _ => true
  end.

Definition equalFold (a b : string) : bool :=
  if negb (String.length a =? String.length b)%nat then false
  else equalBytes a b.

(** [for i := 0; i <= len(s)-len(substr); i++]: the bound is an [int] and
    may be negative, in which case the loop does not run. *)
Definition containsHelper (s substr : string) : bool :=
  let n := String.length s in
  let m := String.length substr in
  if (m <=? n)%nat
  then existsb (fun i => equalFold (substring i m s) substr)
         (seq 0 (n - m + 1))
  else false.

(** [contains] checks if a string contains another string
    (case-insensitive). *)
Definition contains (s substr : string) : bool :=
  (String.length substr <=? String.length s)%nat
  && (String.eqb s substr
      || (0 <? String.length s)%nat && containsHelper s substr).

Section WithDisk.

(** [Save] and [SaveRepositories]: marshalling the value and writing the
    file, which either succeeds or returns an error. *)
Variable save : AppConfig -> option string.
Variable saveRepositories : list Repository -> option string.

Definition Save (c : ConfigService) : option string := save (config c).

Definition SaveRepositories (c : ConfigService) : option string :=
  saveRepositories (repositories c).

(** [SetAIConfig] updates the AI configuration. *)
Definition SetAIConfig (ai : AIConfig) (c : ConfigService)
  : option string * ConfigService :=
  let c := setAI ai c in (Save c, c).

(** [GetAIConfig] returns the AI configuration. *)
Definition GetAIConfig (c : ConfigService) : AIConfig := AI (config c).

(** [AddRecentRepo] adds a repository to recent repos list. *)
Definition AddRecentRepo (path : string) (c : ConfigService)
  : option string * ConfigService :=
  let repos := removeFirst path (RecentRepos (config c)) in
  let repos := path :: repos in
  let repos := if (10 <? length repos)%nat then firstn 10 repos else repos in
  let c := setRecentRepos repos c in
  (Save c, c).

(** [GetRecentRepos] returns the list of recent repositories. *)
Definition GetRecentRepos (c : ConfigService) : list string :=
  RecentRepos (config c).

(** [RemoveRecentRepo] removes a repository from recent repos list. *)
Definition RemoveRecentRepo (path : string) (c : ConfigService)
  : option string * ConfigService :=
  if existsb (fun repo => String.eqb repo path) (RecentRepos (config c))
  then let c := setRecentRepos (removeFirst path (RecentRepos (config c))) c in
       (Save c, c)
  else (None, c).

(** [GetRepositoryByPath] returns a repository by path. *)
Definition GetRepositoryByPath (path : string) (c : ConfigService)
  : option Repository :=
  List.find (fun r => String.eqb (Path r) path) (repositories c).

(** [GetRepository] returns a repository by ID. *)
Definition GetRepository (id : string) (c : ConfigService)
  : option Repository :=
  List.find (fun r => String.eqb (ID r) id) (repositories c).

(** [AddRepository] adds a new repository; [id] is the UUID and [now] the
    formatted time the call draws. *)
Definition AddRepository (id now : string) (path alias description : string)
    (c : ConfigService) : Result Repository * ConfigService :=
  match GetRepositoryByPath path c with
  | Some _ => (Err ("repository already exists: " +:+ path), c)
  | None =>
      let repo := mkRepository id path alias description now now in
      let c := setRepositories (repositories c ++ [repo]) c in
      match SaveRepositories c with
      | Some e => (Err e, c)
      | None => (Ok repo, c)
      end
  end.

(** The repositories with the first one whose ID is [id] replaced by
    [f] of it, and that replacement. *)
Fixpoint updateFirst (id : string) (f : Repository -> Repository)
    (repos : list Repository) : option (Repository * list Repository) :=
  match repos with
  | [] => None
  | r :: rest =>
      if String.eqb (ID r) id then Some (f r, f r :: rest)
      else match updateFirst id f rest with
           | Some (r', rest') => Some (r', r :: rest')
           | None => None
           end
  end.

(** [UpdateRepository] updates an existing repository. *)
Definition UpdateRepository (now : string) (id alias description : string)
    (c : ConfigService) : Result Repository * ConfigService :=
  match updateFirst id
          (fun r => mkRepository (ID r) (Path r) alias description
                      (CreatedAt r) now)
          (repositories c) with
  | Some (r', repos') =>
      let c := setRepositories repos' c in
      match SaveRepositories c with
      | Some e => (Err e, c)
      | None => (Ok r', c)
      end
  | None => (Err ("repository not found: " +:+ id), c)
  end.

Fixpoint removeFirstID (id : string) (repos : list Repository)
  : option (list Repository) :=
  match repos with
  | [] => None
  | r :: rest =>
      if String.eqb (ID r) id then Some rest
      else match removeFirstID id rest with
           | Some rest' => Some (r :: rest')
           | None => None
           end
  end.

(** [DeleteRepository] deletes a repository by ID. *)
Definition DeleteRepository (id : string) (c : ConfigService)
  : option string * ConfigService :=
  match removeFirstID id (repositories c) with
  | Some repos' =>
      let c := setRepositories repos' c in (SaveRepositories c, c)
  | None => (Some ("repository not found: " +:+ id), c)
  end.

(** [SearchRepositories] searches repositories by keyword. *)
Definition SearchRepositories (keyword : string) (c : ConfigService)
  : list Repository :=
  if String.eqb keyword EmptyString then repositories c
  else List.filter
         (fun repo => contains (Path repo) keyword
                      || contains (Alias repo) keyword
                      || contains (Description repo) keyword)
         (repositories c).

End WithDisk.

End config.

(** ** The list of recent repositories *)

Lemma removeFirst_elem (x y : string) (s : list string) :
  y ∈ config.removeFirst x s -> y ∈ s.
Proof.
  induction s as [|z s IH]; simpl; [auto|].
  destruct (String.eqb z x).
  - intros H. by apply list_elem_of_further.
  - intros H. apply elem_of_cons in H as [->|H].
    + apply list_elem_of_here.
    + apply list_elem_of_further. by apply IH.
Qed.

Lemma removeFirst_NoDup (x : string) (s : list string) :
  NoDup s -> NoDup (config.removeFirst x s) /\ x ∉ config.removeFirst x s.
Proof.
  induction 1 as [|z s Hz Hs IH]; simpl.
  - split; [apply NoDup_nil_2|]. intros H. by apply elem_of_nil in H.
  - destruct (String.eqb_spec z x) as [->|Hne].
    + split; assumption.
    + destruct IH as [IH1 IH2]. split.
      * apply NoDup_cons. split; [|assumption].
        intros H. apply Hz. by apply removeFirst_elem in H.
      * intros H. apply elem_of_cons in H as [->|H]; [by apply Hne|].
        contradiction.
Qed.

Lemma removeFirst_absent (x : string) (s : list string) :
  x ∉ s -> config.removeFirst x s = s.
Proof.
  induction s as [|z s IH]; simpl; [reflexivity|]. intros Hx.
  destruct (String.eqb_spec z x) as [->|Hne].
  - exfalso. apply Hx. apply list_elem_of_here.
  - f_equal. apply IH. intros H. apply Hx. by apply list_elem_of_further.
Qed.

Lemma removeFirst_filter (x : string) (s : list string) :
  NoDup s ->
  config.removeFirst x s = List.filter (fun y => negb (String.eqb y x)) s.
Proof.
  induction 1 as [|z s Hz Hs IH]; simpl; [reflexivity|].
  destruct (String.eqb_spec z x) as [->|Hne]; simpl.
  - rewrite <- IH. symmetry. by apply removeFirst_absent.
  - by rewrite IH.
Qed.

Lemma existsb_eqb_elem (x : string) (s : list string) :
  existsb (fun y => String.eqb y x) s = true <-> x ∈ s.
Proof.
  induction s as [|z s IH]; simpl.
  - split; [discriminate|]. intros H. by apply elem_of_nil in H.
  - rewrite orb_true_iff, IH, elem_of_cons.
    destruct (String.eqb_spec z x); split; intros [?|?]; auto; congruence.
Qed.


Definition noDisk {A} (x : A) : option string := None.

Definition freshConfig (recent : list string) : config.ConfigService :=
  config.mkConfigService "config.json" "repositories.json"
    (config.mkAppConfig
       (mkAIConfig ProviderOpenAI "" "https://api.openai.com/v1" "gpt-4")
       recent (config.mkWindowConfig 1200 800 0 0))
    [].


(** X18: on a list without duplicates [RemoveRecentRepo] removes exactly
    the given path and keeps the other entries in order; when the path is
    not in the list nothing is changed and nothing is saved, so no error
    can be returned. *)
Theorem RemoveRecentRepo_list
    (save : config.AppConfig -> option string) (path : string)
    (c : config.ConfigService) :
  NoDup (config.GetRecentRepos c) ->
  config.GetRecentRepos (snd (config.RemoveRecentRepo save path c))
  = List.filter (fun y => negb (String.eqb y path)) (config.GetRecentRepos c)
  /\ (path ∉ config.GetRecentRepos c ->
      config.RemoveRecentRepo save path c = (None, c)).
Proof.
  unfold config.GetRecentRepos, config.RemoveRecentRepo. intros Hnd.
  set (old := config.RecentRepos (config.config c)) in *.
  destruct (existsb (fun repo => String.eqb repo path) old) eqn:Hex.
  - split; [simpl; by apply removeFirst_filter|].
    intros Hout. apply existsb_eqb_elem in Hex. contradiction.
  - split; [|reflexivity]. simpl. fold old.
    rewrite <- removeFirst_filter by assumption.
    symmetry. apply removeFirst_absent. intros Hin.
    apply existsb_eqb_elem in Hin. congruence.
Qed.

Lemma RemoveRecentRepo_list_witness :
  config.GetRecentRepos
    (snd (config.RemoveRecentRepo noDisk "/b" (freshConfig ["/a"; "/b"; "/c"])))
  = ["/a"; "/c"].
Proof.
  apply (RemoveRecentRepo_list noDisk "/b" (freshConfig ["/a"; "/b"; "/c"])).
  apply NoDup_ListNoDup, (NoDup_count_occ' string_dec).
  intros x Hx. repeat (destruct Hx as [<-|Hx]; [reflexivity|]). destruct Hx.
Defined.

(** X19: adding a path that was not in a list of fewer than ten entries and
    removing it again gives the list back. *)
Theorem Add_then_RemoveRecentRepo
    (save : config.AppConfig -> option string) (path : string)
    (c : config.ConfigService) :
  path ∉ config.GetRecentRepos c ->
  (length (config.GetRecentRepos c) < 10)%nat ->
  config.GetRecentRepos
    (snd (config.RemoveRecentRepo save path
            (snd (config.AddRecentRepo save path c))))
  = config.GetRecentRepos c.
Proof.
  unfold config.GetRecentRepos, config.AddRecentRepo, config.RemoveRecentRepo.
  intros Hout Hlen. simpl.
  set (old := config.RecentRepos (config.config c)) in *.
  rewrite (removeFirst_absent path old Hout).
  assert (E : (10 <? S (length old))%nat = false) by (apply Nat.ltb_ge; lia).
  rewrite E. simpl. rewrite String.eqb_refl. reflexivity.
Qed.

Lemma Add_then_RemoveRecentRepo_witness :
  config.GetRecentRepos
    (snd (config.RemoveRecentRepo noDisk "/new"
            (snd (config.AddRecentRepo noDisk "/new"
                    (freshConfig ["/a"; "/b"])))))
  = ["/a"; "/b"].
Proof.
  apply (Add_then_RemoveRecentRepo noDisk "/new" (freshConfig ["/a"; "/b"])).
  - intros H. repeat (apply elem_of_cons in H as [H|H]; [discriminate|]).
    by apply elem_of_nil in H.
  - simpl. lia.
Defined.

(** ** Case-insensitive search *)

Fixpoint lower (s : string) : string :=
  match s with
  | EmptyString => EmptyString
  | String c s' => String (config.lowerByte c) (lower s')
  end.

Lemma length_lower (s : string) : String.length (lower s) = String.length s.
Proof. induction s as [|c s IH]; simpl; congruence. Qed.

Lemma equalBytes_lower (a : string) :
  forall b, String.length a = String.length b ->
            (config.equalBytes a b = true <-> lower a = lower b).
Proof.
  induction a as [|x a IH]; intros [|y b] Hlen; simpl in *; try discriminate.
  - split; reflexivity.
  - injection Hlen as Hlen. specialize (IH b Hlen).
    destruct (Ascii.eqb_spec (config.lowerByte x) (config.lowerByte y))
      as [E|E].
    + rewrite IH, E. split; [intros ->; reflexivity|]. intros H. by inversion H.
    + split; [discriminate|]. intros H. inversion H. contradiction.
Qed.

Lemma equalFold_lower (a b : string) :
  config.equalFold a b = true <-> lower a = lower b.
Proof.
  unfold config.equalFold.
  destruct (Nat.eqb_spec (String.length a) (String.length b)) as [E|E]; simpl.
  - by apply equalBytes_lower.
  - split; [discriminate|]. intros H. exfalso. apply E.
    rewrite <- (length_lower a), <- (length_lower b), H. reflexivity.
Qed.

Lemma equalFold_refl (a : string) : config.equalFold a a = true.
Proof. by apply equalFold_lower. Qed.

Lemma equalFold_sym (a b : string) :
  config.equalFold a b = config.equalFold b a.
Proof.
  apply eq_true_iff_eq. rewrite !equalFold_lower. split; congruence.
Qed.

Lemma equalFold_trans (a b c : string) :
  config.equalFold a b = true -> config.equalFold b c = true ->
  config.equalFold a c = true.
Proof. rewrite !equalFold_lower. congruence. Qed.

Lemma equalFold_length (a b : string) :
  config.equalFold a b = true -> String.length a = String.length b.
Proof.
  unfold config.equalFold.
  destruct (Nat.eqb_spec (String.length a) (String.length b)); simpl;
    [auto|discriminate].
Qed.



Lemma substring_zero_append (mid post : string) :
  substring 0 (String.length mid) (mid +:+ post) = mid.
Proof.
  induction mid as [|c mid IH].
  - destruct post; reflexivity.
  - rewrite append_cons. simpl. rewrite IH. reflexivity.
Qed.

Lemma substring_skip_append (pre t : string) (m : nat) :
  substring (String.length pre) m (pre +:+ t) = substring 0 m t.
Proof.
  induction pre as [|c pre IH]; [reflexivity|].
  rewrite append_cons. simpl. exact IH.
Qed.

Lemma substring_zero_split (m : nat) :
  forall s, (m <= String.length s)%nat ->
            exists post, s = substring 0 m s +:+ post.
Proof.
  induction m as [|m IH]; intros s Hlen.
  - exists s. destruct s; reflexivity.
  - destruct s as [|c s]; [simpl in Hlen; lia|].
    destruct (IH s ltac:(simpl in Hlen; lia)) as [post Hpost].
    exists post. simpl. rewrite append_cons. congruence.
Qed.

Lemma substring_split (i m : nat) :
  forall s, (i + m <= String.length s)%nat ->
            exists pre post, s = pre +:+ substring i m s +:+ post.
Proof.
  induction i as [|i IH]; intros s Hlen.
  - destruct (substring_zero_split m s Hlen) as [post Hpost].
    exists EmptyString, post. exact Hpost.
  - destruct s as [|c s]; [simpl in Hlen; lia|].
    destruct (IH s ltac:(simpl in Hlen; lia)) as (pre & post & Hs).
    exists (String c pre), post. rewrite append_cons. simpl. congruence.
Qed.

(** X21: [contains s substr] holds exactly when some stretch of [s] equals
    [substr] up to the case of ASCII letters. *)
Theorem contains_iff_folded_substring (s substr : string) :
  config.contains s substr = true <->
  exists pre mid post,
    s = pre +:+ mid +:+ post /\ config.equalFold mid substr = true.
Proof.
  unfold config.contains, config.containsHelper. split.
  - intros H. apply andb_true_iff in H as [Hlen H]. apply Nat.leb_le in Hlen.
    apply orb_true_iff in H as [H|H].
    + apply String.eqb_eq in H. subst substr.
      exists EmptyString, s, EmptyString.
      split; [by rewrite append_empty_r|apply equalFold_refl].
    + apply andb_true_iff in H as [_ H].
      apply Nat.leb_le in Hlen as Hle. rewrite Hle in H.
      apply existsb_exists in H as (i & Hi & Heq). apply in_seq in Hi.
      destruct (substring_split i (String.length substr) s ltac:(lia))
        as (pre & post & Hs).
      exists pre, (substring i (String.length substr) s), post. auto.
  - intros (pre & mid & post & -> & Heq).
    pose proof (equalFold_length _ _ Heq) as Hm.
    assert (Hlen : (String.length substr
                    <= String.length (pre +:+ mid +:+ post))%nat).
    { rewrite !length_append. lia. }
    apply Nat.leb_le in Hlen as Hle. rewrite Hle. simpl.
    apply orb_true_iff.
    destruct (pre +:+ mid +:+ post) as [|c rest] eqn:Es.
    + left. destruct substr; [reflexivity|simpl in Hlen; lia].
    + right. apply andb_true_iff. split; [reflexivity|].
      rewrite <- Es. apply existsb_exists.
      exists (String.length pre). split.
      * apply in_seq. rewrite !length_append. lia.
      * rewrite substring_skip_append, <- Hm, substring_zero_append.
        exact Heq.
Qed.

Lemma contains_iff_folded_substring_witness :
  config.contains "/home/dev/Git-Tools" "git-t" = true.
Proof.
  apply (contains_iff_folded_substring "/home/dev/Git-Tools" "git-t").
  exists "/home/dev/", "Git-T", "ools". split; reflexivity.
Defined.

Lemma contains_fold_keyword (s k1 k2 : string) :
  config.equalFold k1 k2 = true -> config.contains s k1 = config.contains s k2.
Proof.
  intros Hk. apply eq_true_iff_eq. rewrite !contains_iff_folded_substring.
  split; intros (pre & mid & post & Hs & Heq); exists pre, mid, post;
    (split; [exact Hs|]).
  - by eapply equalFold_trans.
  - eapply equalFold_trans; [exact Heq|]. by rewrite equalFold_sym.
Qed.

(** X22: [SearchRepositories] does not depend on the case of the ASCII
    letters of the keyword: keywords that [equalFold] identifies select
    the same repositories. *)
Theorem SearchRepositories_ignores_keyword_case
    (k1 k2 : string) (c : config.ConfigService) :
  config.equalFold k1 k2 = true ->
  config.SearchRepositories k1 c = config.SearchRepositories k2 c.
Proof.
  intros Hk. unfold config.SearchRepositories.
  pose proof (equalFold_length _ _ Hk) as Hlen.
  destruct k1 as [|c1 k1], k2 as [|c2 k2]; try discriminate; [reflexivity|].
  simpl String.eqb. cbv iota. apply filter_ext. intros r.
  by rewrite !(contains_fold_keyword _ _ _ Hk).
Qed.

Definition sampleRepos : config.ConfigService :=
  config.mkConfigService "config.json" "repositories.json"
    (config.config (freshConfig []))
    [ config.mkRepository "id-1" "/home/dev/Git-Tools" "tools" "" "t0" "t0";
      config.mkRepository "id-2" "/home/dev/notes" "Notes" "" "t1" "t1" ].

Lemma SearchRepositories_ignores_keyword_case_witness :
  map config.ID (config.SearchRepositories "GIT" sampleRepos) = ["id-1"] /\
  config.SearchRepositories "GIT" sampleRepos
  = config.SearchRepositories "git" sampleRepos.
Proof.
  split; [reflexivity|].
  apply (SearchRepositories_ignores_keyword_case "GIT" "git" sampleRepos).
  reflexivity.
Defined.

(** ** The managed repositories *)

Lemma find_path_none (path : string) (repos : list config.Repository) :
  List.find (fun r => String.eqb (config.Path r) path) repos = None ->
  path ∉ map config.Path repos.
Proof.
  induction repos as [|r repos IH]; simpl.
  - intros _ H. by apply elem_of_nil in H.
  - destruct (String.eqb_spec (config.Path r) path) as [E|E]; [discriminate|].
    intros Hnone H. apply elem_of_cons in H as [H|H]; [congruence|].
    by apply IH.
Qed.

Lemma find_app_last {A} (f : A -> bool) (l : list A) (x : A) :
  List.find f l = None -> f x = true -> List.find f (l ++ [x]) = Some x.
Proof.
  induction l as [|y l IH]; simpl; intros Hnone Hx.
  - by rewrite Hx.
  - destruct (f y); [discriminate|]. by apply IH.
Qed.



Lemma updateFirst_spec (id : string)
    (f : config.Repository -> config.Repository)
    (Hid : forall r, config.ID (f r) = config.ID r)
    (Hpath : forall r, config.Path (f r) = config.Path r)
    (repos : list config.Repository) :
  match config.updateFirst id f repos with
  | Some (r', repos') =>
      map config.ID repos' = map config.ID repos /\
      map config.Path repos' = map config.Path repos /\
      (exists r, List.find (fun r => String.eqb (config.ID r) id) repos = Some r
                 /\ r' = f r) /\
      List.find (fun r => String.eqb (config.ID r) id) repos' = Some r'
  | None =>
      List.find (fun r => String.eqb (config.ID r) id) repos = None
  end.
Proof.
  induction repos as [|r repos IH]; simpl; [reflexivity|].
  destruct (String.eqb (config.ID r) id) eqn:E.
  - simpl. rewrite Hid, Hpath, E. eauto 6.
  - destruct (config.updateFirst id f repos) as [[r' repos']|]; [|exact IH].
    destruct IH as (H1 & H2 & H3 & H4). simpl. rewrite E, H1, H2. auto.
Qed.

(** X24: [UpdateRepository] changes neither the IDs nor the paths of the
    managed repositories, whatever it returns; when a repository has the
    given ID, the first such one afterwards carries the new alias and
    description (also when saving failed), and otherwise the call fails
    with "repository not found" and changes nothing. *)
Theorem UpdateRepository_keeps_identity
    (saveRepositories : list config.Repository -> option string)
    (now id alias description : string) (c : config.ConfigService) :
  let r := config.UpdateRepository saveRepositories now id alias description c in
  map config.ID (config.repositories (snd r))
  = map config.ID (config.repositories c) /\
  map config.Path (config.repositories (snd r))
  = map config.Path (config.repositories c) /\
  match config.GetRepository id c with
  | Some old =>
      config.GetRepository id (snd r)
      = Some (config.mkRepository (config.ID old) (config.Path old) alias
                description (config.CreatedAt old) now)
  | None => r = (Err ("repository not found: " +:+ id), c)
  end.
Proof.
  unfold config.UpdateRepository, config.GetRepository.
  set (f := fun r : config.Repository =>
              config.mkRepository (config.ID r) (config.Path r) alias
                description (config.CreatedAt r) now).
  pose proof (updateFirst_spec id f (fun _ => eq_refl) (fun _ => eq_refl)
                (config.repositories c)) as H.
  destruct (config.updateFirst id f (config.repositories c))
    as [[r' repos']|].
  - destruct H as (H1 & H2 & (old & Hold & ->) & H4). rewrite Hold.
    unfold config.SaveRepositories.
    destruct (saveRepositories _); simpl; auto.
  - rewrite H. simpl. auto.
Qed.

Lemma removeFirstID_spec (id : string) (repos : list config.Repository) :
  NoDup (map config.ID repos) ->
  match config.removeFirstID id repos with
  | Some repos' =>
      repos' = List.filter (fun r => negb (String.eqb (config.ID r) id)) repos
      /\ id ∈ map config.ID repos
  | None => id ∉ map config.ID repos
  end.
Proof.
  induction repos as [|r repos IH]; simpl; intros Hnd.
  - intros H. by apply elem_of_nil in H.
  - apply NoDup_cons in Hnd as [Hr Hnd]. specialize (IH Hnd).
    destruct (String.eqb_spec (config.ID r) id) as [E|E]; simpl.
    + split; [|rewrite E; apply list_elem_of_here].
      subst id. clear IH. induction repos as [|q repos IHr]; [reflexivity|].
      simpl. simpl in Hr.
      destruct (String.eqb_spec (config.ID q) (config.ID r)) as [E|E].
      * exfalso. apply Hr. rewrite E. apply list_elem_of_here.
      * simpl. f_equal. apply IHr.
        -- intros H. apply Hr. by apply list_elem_of_further.
        -- simpl in Hnd. by apply NoDup_cons in Hnd as [_ Hnd].
    + destruct (config.removeFirstID id repos) as [repos'|].
      * destruct IH as [-> Hin]. split; [reflexivity|].
        by apply list_elem_of_further.
      * intros H. apply elem_of_cons in H as [H|H]; [congruence|contradiction].
Qed.

(** X25: when the IDs of the managed repositories are pairwise distinct,
    [DeleteRepository] removes exactly the repository with the given ID
    and keeps the others in order; for an ID that no repository has it
    fails with "repository not found" and changes nothing. *)
Theorem DeleteRepository_removes_id
    (saveRepositories : list config.Repository -> option string)
    (id : string) (c : config.ConfigService) :
  NoDup (map config.ID (config.repositories c)) ->
  let r := config.DeleteRepository saveRepositories id c in
  config.repositories (snd r)
  = List.filter (fun x => negb (String.eqb (config.ID x) id))
      (config.repositories c) /\
  config.GetRepository id (snd r) = None /\
  (id ∉ map config.ID (config.repositories c) ->
   r = (Some ("repository not found: " +:+ id), c)).
Proof.
  intros Hnd. unfold config.DeleteRepository, config.GetRepository.
  pose proof (removeFirstID_spec id (config.repositories c) Hnd) as H.
  assert (Hfilter : forall l : list config.Repository,
             List.find (fun r => String.eqb (config.ID r) id)
               (List.filter (fun x => negb (String.eqb (config.ID x) id)) l)
             = None).
  { induction l as [|x l IHl]; [reflexivity|]. simpl.
    destruct (String.eqb (config.ID x) id) eqn:E; simpl; [exact IHl|].
    rewrite E. exact IHl. }
  destruct (config.removeFirstID id (config.repositories c)) as [repos'|].
  - destruct H as [-> Hin]. simpl. split; [reflexivity|].
    split; [apply Hfilter|]. intros Hout. contradiction.
  - simpl. assert (E : List.filter
                         (fun x => negb (String.eqb (config.ID x) id))
                         (config.repositories c) = config.repositories c).
    { clear Hnd Hfilter. induction (config.repositories c) as [|x l IHl];
        [reflexivity|]. simpl.
      destruct (String.eqb_spec (config.ID x) id) as [E|E].
      - exfalso. apply H. simpl. rewrite E. apply list_elem_of_here.
      - simpl. f_equal. apply IHl. intros Hin. apply H. simpl.
        by apply list_elem_of_further. }
    split; [by rewrite E|]. split; [|reflexivity].
    rewrite <- E. apply Hfilter.
Qed.

Lemma DeleteRepository_removes_id_witness :
  map config.ID
    (config.repositories (snd (config.DeleteRepository noDisk "id-1" sampleRepos)))
  = ["id-2"] /\
  config.GetRepository "id-1"
    (snd (config.DeleteRepository noDisk "id-1" sampleRepos)) = None.
Proof.
  split; [reflexivity|].
  apply (DeleteRepository_removes_id noDisk "id-1" sampleRepos).
  apply NoDup_ListNoDup, (NoDup_count_occ' string_dec).
  intros x Hx. repeat (destruct Hx as [<-|Hx]; [reflexivity|]). destruct Hx.
Defined.

(** * The application: [App] and its bound methods *)

Module App.

(** [App] holds the three services; [aiWorld] is its AI service together
    with the requests sent so far. *)
Record App : Type := mkApp {
  gitService : git.GitService;
  aiWorld : ai.World;
  configService : config.ConfigService
}.

Definition setAIWorld (w : ai.World) (a : App) : App :=
  mkApp (gitService a) w (configService a).

Definition setConfigService (c : config.ConfigService) (a : App) : App :=
  mkApp (gitService a) (aiWorld a) c.

(** [fmt.Sprintf("\n=== %s ===\n%s\n", file.Path, fileDiff)]. *)
Definition diffSection (path fileDiff : string) : string :=
  LF +:+ "=== " +:+ path +:+ " ===" +:+ LF +:+ fileDiff +:+ LF.

(** [NewApp] creates a new App application struct; [c] is the HTTP client
    the new AI service gets. *)
Definition NewApp (cs : config.ConfigService) (c : ai.Client) : App :=
  mkApp (git.mkGitService EmptyString)
    (ai.mkWorld (ai.NewAIService c) []) cs.

(** [startup] is called when the app starts. *)
Definition startup (a : App) : App :=
  let aiConfig := config.GetAIConfig (configService a) in
  if negb (String.eqb (APIKey aiConfig) EmptyString)
  then setAIWorld (snd (ai.SetConfig aiConfig (aiWorld a))) a
  else a.

Section WithEnvironment.

Variable gitExec : string -> list string -> string * option string.
Variable json_Marshal : Value -> Result string.
Variable json_Unmarshal : string -> Result (gmap string Value).
Variable http_NewRequest : string -> string -> string -> Result Request.
Variable save : config.AppConfig -> option string.

(** The body of the loop over [status.Staged]: a file whose diff cannot be
    read is skipped. *)
Definition collectStep (g : git.GitService) (diff : string) (file : FileChange)
  : string :=
  let '(fileDiff, err) := GitService.GetDiff gitExec g (Path file) true in
  match err with
  | Some _ => diff
  | None => diff +:+ diffSection (Path file) fileDiff
  end.

Definition collectDiff (g : git.GitService) (staged : list FileChange)
  : string :=
  fold_left (collectStep g) staged EmptyString.

(** [GenerateCommitMessage] generates a commit message using AI. *)
Definition GenerateCommitMessage (a : App) : Result string * App :=
  match git.GetStatus gitExec (gitService a) with
  | Err e => (Err e, a)
  | Panic e => (Panic e, a)
  | Ok status =>
      let diff := collectDiff (gitService a) (Staged status) in
      if String.eqb diff EmptyString
      then (Err "no staged changes to generate commit message for", a)
      else
        let '(r, w) :=
          ai.GenerateCommitMessage json_Marshal json_Unmarshal http_NewRequest
            diff (aiWorld a) in
        (r, setAIWorld w a)
  end.

(** [SetAIConfig] updates the AI configuration. *)
Definition SetAIConfig (cfg : AIConfig) (a : App) : option string * App :=
  let a := setAIWorld (snd (ai.SetConfig cfg (aiWorld a))) a in
  match ai.ValidateConfig (aiWorld a) with
  | (Ok _, w) =>
      let a := setAIWorld w a in
      let '(err, cs) := config.SetAIConfig save cfg (configService a) in
      let a := setConfigService cs a in
      match err with
      | Some e => (Some ("failed to save AI configuration: " +:+ e), a)
      | None => (None, a)
      end
  | (Err e, w) =>
      (Some ("AI configuration validation failed: " +:+ e), setAIWorld w a)
  | (Panic e, w) => (Some e, setAIWorld w a)
  end.

End WithEnvironment.

End App.

Lemma spaceByte_equals_sign : spaceByte "=" = false.
Proof. vm_compute. reflexivity. Qed.

Lemma diffSection_marked (path fileDiff : string) :
  allBytes spaceByte (App.diffSection path fileDiff) = false.
Proof.
  unfold App.diffSection.
  change (LF +:+ "=== " +:+ path +:+ " ===" +:+ LF +:+ fileDiff +:+ LF)
    with (String lf (String "=" ("== " +:+ path +:+ " ===" +:+ LF +:+ fileDiff
                                   +:+ LF))).
  cbn [allBytes]. rewrite spaceByte_equals_sign. apply andb_false_r.
Qed.

Lemma ValidateConfig_SetConfig_run (cfg : AIConfig) (w : ai.World) :
  ai.ValidateConfig (snd (ai.SetConfig cfg w))
  = (fst (ai.ValidateConfigParam cfg w), snd (ai.SetConfig cfg w)).
Proof.
  unfold ai.ValidateConfigParam, ai.ValidateConfig, ai.SetConfig, ai.bind,
    ai.self, ai.fail, ai.ret, ai.lift. simpl.
  repeat case_match; simplify_eq; reflexivity.
Qed.

Section AppProperties.

Variable gitExec : string -> list string -> string * option string.
Variable json_Marshal : Value -> Result string.
Variable json_Unmarshal : string -> Result (gmap string Value).
Variable http_NewRequest : string -> string -> string -> Result Request.
Variable save : config.AppConfig -> option string.

Abbreviation collectDiff := (App.collectDiff gitExec).
Abbreviation aiGenerate :=
  (ai.GenerateCommitMessage json_Marshal json_Unmarshal http_NewRequest).
Abbreviation appGenerate :=
  (App.GenerateCommitMessage gitExec json_Marshal json_Unmarshal
     http_NewRequest).

Lemma fold_collectStep_marked (g : git.GitService) (files : list FileChange) :
  forall diff,
    diff = EmptyString \/ allBytes spaceByte diff = false ->
    let r := fold_left (App.collectStep gitExec g) files diff in
    r = EmptyString \/ allBytes spaceByte r = false.
Proof.
  induction files as [|f files IH]; intros diff Hdiff; [exact Hdiff|].
  cbn [fold_left]. apply IH. unfold App.collectStep.
  destruct (GitService.GetDiff gitExec g (Path f) true) as [d [e|]];
    [exact Hdiff|].
  right. rewrite allBytes_append, diffSection_marked. apply andb_false_r.
Qed.

(** X26: a staged file whose diff cannot be read is left out of the diff
    [GenerateCommitMessage] collects, and the files after it are still
    read: the collected diff is the one of the other files. *)
Theorem collectDiff_skips_unreadable
    (g : git.GitService) (before after : list FileChange) (f : FileChange)
    (e out : string) :
  GitService.GetDiff gitExec g (Path f) true = (out, Some e) ->
  collectDiff g (before ++ f :: after) = collectDiff g (before ++ after).
Proof.
  intros Hf. unfold App.collectDiff. rewrite !fold_left_app.
  cbn [fold_left]. unfold App.collectStep at 2. rewrite Hf. reflexivity.
Qed.

(** X27: the application never hands a blank diff to the AI service.  When
    no staged file yields a diff it fails with "no staged changes to
    generate commit message for" and sends nothing; otherwise the collected
    diff does not trim to the empty string, and the result is the AI
    service's on that diff. *)
Theorem App_GenerateCommitMessage_diff_not_blank
    (a : App.App) (status : GitStatus) :
  git.GetStatus gitExec (App.gitService a) = Ok status ->
  let diff := collectDiff (App.gitService a) (Staged status) in
  (diff = EmptyString ->
   appGenerate a
   = (Err "no staged changes to generate commit message for", a)) /\
  (diff <> EmptyString ->
   strings.TrimSpace diff <> EmptyString /\
   appGenerate a
   = (fst (aiGenerate diff (App.aiWorld a)),
      App.setAIWorld (snd (aiGenerate diff (App.aiWorld a))) a)).
Proof.
  intros Hst diff. unfold App.GenerateCommitMessage. rewrite Hst. fold diff.
  split.
  - intros ->. reflexivity.
  - intros Hne. split.
    + apply TrimSpace_not_blank.
      destruct (fold_collectStep_marked (App.gitService a) (Staged status)
                  EmptyString (or_introl eq_refl)) as [E|E];
        [contradiction|exact E].
    + destruct (String.eqb_spec diff EmptyString); [contradiction|].
      destruct (aiGenerate diff (App.aiWorld a)). reflexivity.
Qed.

(** X28: [SetAIConfig] replaces the configuration the AI service holds
    before it validates it: a configuration that validation rejects is
    held afterwards all the same, the error is "AI configuration
    validation failed: ...", and the configuration service is left as it
    was (nothing is saved). *)
Theorem SetAIConfig_holds_rejected_config (cfg : AIConfig) (a : App.App) :
  let r := App.SetAIConfig save cfg a in
  ai.config (ai.service (App.aiWorld (snd r))) = cfg /\
  (forall e,
     fst (ai.ValidateConfigParam cfg (App.aiWorld a)) = Err e ->
     fst r = Some ("AI configuration validation failed: " +:+ e) /\
     App.configService (snd r) = App.configService a).
Proof.
  unfold App.SetAIConfig, config.SetAIConfig, config.Save.
  cbn [App.aiWorld App.setAIWorld].
  rewrite ValidateConfig_SetConfig_run.
  destruct (fst (ai.ValidateConfigParam cfg (App.aiWorld a))) as [[]|e|e].
  - cbn [App.aiWorld App.setAIWorld App.configService App.setConfigService].
    destruct (save _); cbn; split; try reflexivity; intros; discriminate.
  - cbn. split; [reflexivity|]. intros e' He'. inversion He'. auto.
  - cbn. split; [reflexivity|]. intros e' He'. discriminate.
Qed.

(** X29: a stored configuration without an API key - the one a user of a
    local Ollama has - is not loaded at startup: the AI service keeps the
    defaults of [NewAIService], and generating a message fails with "API
    key is required for openai". *)
Theorem startup_ignores_keyless_config
    (cs : config.ConfigService) (c : ai.Client) (diff : string) :
  APIKey (config.GetAIConfig cs) = EmptyString ->
  strings.TrimSpace diff <> EmptyString ->
  let a := App.startup (App.NewApp cs c) in
  ai.config (ai.service (App.aiWorld a))
  = mkAIConfig ProviderOpenAI EmptyString "https://api.openai.com/v1" "gpt-4"
  /\ aiGenerate diff (App.aiWorld a)
     = (Err "API key is required for openai", App.aiWorld a).
Proof.
  intros Hkey Hd. unfold App.startup, App.NewApp. cbn [App.configService].
  rewrite Hkey. change (negb (String.eqb EmptyString EmptyString)) with false.
  cbv iota. cbn [App.aiWorld]. split; [reflexivity|].
  unfold ai.GenerateCommitMessage.
  rewrite (bind_run ai.self _ _ (ai.NewAIService c)
             (ai.mkWorld (ai.NewAIService c) [])) by reflexivity.
  destruct (String.eqb_spec (strings.TrimSpace diff) EmptyString);
    [contradiction|].
  reflexivity.
Qed.

End AppProperties.

(** A repository with two staged files, of which only [b.go] has a
    readable diff. *)
Definition twoStagedGit (dir : string) (args : list string)
  : string * option string :=
  if decide (args = ["status"; "--porcelain=v1"])
  then ("M  a.go" +:+ LF +:+ "M  b.go" +:+ LF, None)
  else if decide (args = ["status"; "-sb"]) then ("## main" +:+ LF, None)
  else if decide (args = ["diff"; "--staged"; "a.go"])
  then ("fatal: bad object", Some "exit status 128")
  else if decide (args = ["diff"; "--staged"; "b.go"])
  then ("+func b() {}" +:+ LF, None)
  else ("main" +:+ LF, None).

Definition stagedA : FileChange := mkFileChange "a.go" "Staged" 0 0.
Definition stagedB : FileChange := mkFileChange "b.go" "Staged" 0 0.

Definition sampleApp (cfg : AIConfig) (c : ai.Client) : App.App :=
  App.mkApp fixtureRepo (Mock.world cfg c) (freshConfig []).

Lemma collectDiff_skips_unreadable_witness :
  App.collectDiff twoStagedGit fixtureRepo [stagedA; stagedB]
  = App.collectDiff twoStagedGit fixtureRepo [stagedB].
Proof.
  eapply (collectDiff_skips_unreadable twoStagedGit fixtureRepo [] [stagedB]
            stagedA).
  vm_compute. reflexivity.
Defined.

Lemma App_GenerateCommitMessage_diff_not_blank_witness :
  exists status,
    git.GetStatus twoStagedGit fixtureRepo = Ok status /\
    strings.TrimSpace (App.collectDiff twoStagedGit fixtureRepo (Staged status))
    <> EmptyString.
Proof.
  eexists. split; [vm_compute; reflexivity|].
  apply (App_GenerateCommitMessage_diff_not_blank twoStagedGit
           Mock.json_Marshal Mock.json_Unmarshal Mock.http_NewRequest
           (sampleApp localOllama (Mock.answering 200 Mock.feat)) _
           ltac:(vm_compute; reflexivity)).
  vm_compute. discriminate.
Defined.

Lemma SetAIConfig_holds_rejected_config_witness :
  ai.config (ai.service (App.aiWorld
    (snd (App.SetAIConfig noDisk keylessOpenAI
            (sampleApp localOllama (Mock.answering 200 Mock.feat))))))
  = keylessOpenAI /\
  fst (App.SetAIConfig noDisk keylessOpenAI
         (sampleApp localOllama (Mock.answering 200 Mock.feat)))
  = Some "AI configuration validation failed: API key is required for openai".
Proof.
  destruct (SetAIConfig_holds_rejected_config noDisk keylessOpenAI
              (sampleApp localOllama (Mock.answering 200 Mock.feat)))
    as [Hheld Herr].
  split; [exact Hheld|].
  apply (Herr "API key is required for openai"). reflexivity.
Defined.

Definition storedOllama : config.ConfigService :=
  config.mkConfigService "config.json" "repositories.json"
    (config.mkAppConfig localOllama [] (config.mkWindowConfig 1200 800 0 0)) [].

Lemma startup_ignores_keyless_config_witness :
  Provider (ai.config (ai.service (App.aiWorld
    (App.startup (App.NewApp storedOllama (Mock.answering 200 Mock.feat))))))
  = ProviderOpenAI /\
  fst (Mock.GenerateCommitMessage sampleDiff
         (App.aiWorld
            (App.startup
               (App.NewApp storedOllama (Mock.answering 200 Mock.feat)))))
  = Err "API key is required for openai".
Proof.
  destruct (startup_ignores_keyless_config
              Mock.json_Marshal Mock.json_Unmarshal Mock.http_NewRequest
              storedOllama (Mock.answering 200 Mock.feat) sampleDiff
              eq_refl ltac:(vm_compute; discriminate)) as [Hcfg Hgen].
  split.
  - rewrite Hcfg. reflexivity.
  - unfold Mock.GenerateCommitMessage. rewrite Hgen. reflexivity.
Defined.
